(** * HelperPro MCP: the extraction engine

A shallow embedding of the code-analysis core of the server:
- [fileUtils.ts]: [readGitignore], [convertGitignorePatternsToGlob],
  [getFilesInDirectory], [readFileContent], [getFileLanguage];
- [parsers/index.ts]: [JSParser], [PythonParser], [GoParser],
  [getParserForFile];
- [analyzers/functions.ts], [analyzers/classes.ts]: [getFunctions],
  [getClasses].

JavaScript strings are modelled as [string]; one [ascii] stands for one
code unit, so the development covers texts whose code units are below
256.  Array indices and character offsets are [Z], as the binary search
of the parsers lets [high] go below zero.  The file system, the [glob]
package and Node's [path] module are the environment. *)

From Stdlib Require Import String Ascii ZArith Lia Bool List DecimalString Sorted.
From stdpp Require Import gmap strings list.

Local Open Scope Z_scope.

(** ** JavaScript string methods *)

Module JsString.

Definition newline : ascii := "010"%char.
Definition backslash : ascii := "092"%char.
Definition dquote : ascii := "034"%char.
Definition squote : ascii := "039"%char.

(** Code units matched by [\s], which are also the ones [trim] removes:
    TAB, LF, VT, FF, CR, SPACE and NBSP are those below 256. *)
Definition isWhiteSpace (c : ascii) : bool :=
  match N_of_ascii c with
  | 9%N | 10%N | 11%N | 12%N | 13%N | 32%N | 160%N => true
  | _ => false
  end.

(** Line terminators, for [.], [^] and [$]. *)
Definition isLineTerminator (c : ascii) : bool :=
  match N_of_ascii c with
  | 10%N | 13%N => true
  | _ => false
  end.

Definition inRange (lo hi : N) (c : ascii) : bool :=
  let n := N_of_ascii c in (lo <=? n)%N && (n <=? hi)%N.

Definition isLetter (c : ascii) : bool :=
  inRange 97 122 c || inRange 65 90 c.

Definition isDigit (c : ascii) : bool := inRange 48 57 c.

(** [s.startsWith(p)] *)
Definition startsWith (s p : string) : bool := String.prefix p s.

(** [s.endsWith(p)] *)
Fixpoint endsWith (s p : string) : bool :=
  String.eqb s p ||
  match s with
  | EmptyString => false
  | String _ s' => endsWith s' p
  end.

(** [s.includes(p)] *)
Fixpoint includes (s p : string) : bool :=
  String.prefix p s ||
  match s with
  | EmptyString => false
  | String _ s' => includes s' p
  end.

(** [s.substring(1)] *)
Definition substring1 (s : string) : string :=
  match s with
  | EmptyString => EmptyString
  | String _ s' => s'
  end.

(** [s.split('\n')]: never empty, the last piece may be the empty string. *)
Fixpoint splitLines (s : string) : list string :=
  match s with
  | EmptyString => [EmptyString]
  | String c s' =>
      if Ascii.eqb c newline then EmptyString :: splitLines s'
      else match splitLines s' with
           | l :: ls => String c l :: ls
           | [] => [String c EmptyString]
           end
  end.

Fixpoint trimStart (s : string) : string :=
  match s with
  | EmptyString => EmptyString
  | String c s' => if isWhiteSpace c then trimStart s' else s
  end.

(** [s.trim()] *)
Definition trim (s : string) : string :=
  String.rev (trimStart (String.rev (trimStart s))).

(** [s.replace(/\\/g, '/')] *)
Fixpoint replaceBackslashes (s : string) : string :=
  match s with
  | EmptyString => EmptyString
  | String c s' =>
      String (if Ascii.eqb c backslash then "/"%char else c)
             (replaceBackslashes s')
  end.

Definition lowerUnit (c : ascii) : ascii :=
  let n := N_of_ascii c in
  if inRange 65 90 c then ascii_of_N (n + 32)
  else if inRange 192 222 c && negb (n =? 215)%N then ascii_of_N (n + 32)
  else c.

(** [s.toLowerCase()] *)
Fixpoint toLowerCase (s : string) : string :=
  match s with
  | EmptyString => EmptyString
  | String c s' => String (lowerUnit c) (toLowerCase s')
  end.

(** [lines.join('\n')], used to write multi-line texts. *)
Fixpoint unlines (ls : list string) : string :=
  match ls with
  | [] => EmptyString
  | [l] => l
  | l :: ls' => l +:+ String newline (unlines ls')
  end.

(** The first [n] code units of [s]. *)
Fixpoint take (n : nat) (s : string) : string :=
  match n, s with
  | S n', String c s' => String c (take n' s')
  | _, _ => EmptyString
  end.

End JsString.

Import JsString.

(** ** Regular expressions

The fragment of the JavaScript regular expressions the parsers use (in
the comments below a pattern is written with blanks between its pieces),
with the backtracking order of the language: alternatives left to right,
greedy quantifiers longest first, lazy ones shortest first.  Quantifiers
only ever apply to one character class in the source patterns, and each
pattern has exactly one capture group. *)

Module RegExp.

Inductive regex : Type :=
| Eps                                 (* the empty pattern *)
| Chr (p : ascii -> bool)             (* one code unit of a class *)
| Lit (s : string)                    (* literal text *)
| Seq (r1 r2 : regex)
| Alt (r1 r2 : regex)                 (* r1|r2 *)
| Star (p : ascii -> bool)            (* [class]* *)
| StarLazy (p : ascii -> bool)        (* [class]*? *)
| Group (r : regex)                   (* ( r ), capture group 1 *)
| Bol                                 (* ^ under the m flag *)
| Eol.                                (* $ under the m flag *)

(** [class]+ and ( r )? *)
Definition Plus (p : ascii -> bool) : regex := Seq (Chr p) (Star p).
Definition Opt (r : regex) : regex := Alt r Eps.

(** A position of the matcher: the code unit before it, the text from it
    on, and what group 1 captured so far. *)
Record MatchState : Type := mkState {
  ms_prev : option ascii;
  ms_rest : string;
  ms_cap : option string
}.

Definition Cont : Type := MatchState -> option MatchState.

Fixpoint litMatch (lit : string) (k : Cont) (prev : option ascii)
    (rest : string) (cap : option string) : option MatchState :=
  match lit with
  | EmptyString => k (mkState prev rest cap)
  | String a lit' =>
      match rest with
      | String c rest' =>
          if Ascii.eqb a c then litMatch lit' k (Some c) rest' cap else None
      | EmptyString => None
      end
  end.

Fixpoint starGreedy (p : ascii -> bool) (k : Cont) (prev : option ascii)
    (rest : string) (cap : option string) : option MatchState :=
  match rest with
  | String c rest' =>
      if p c then
        match starGreedy p k (Some c) rest' cap with
        | Some r => Some r
        | None => k (mkState prev rest cap)
        end
      else k (mkState prev rest cap)
  | EmptyString => k (mkState prev rest cap)
  end.

Fixpoint starLazy (p : ascii -> bool) (k : Cont) (prev : option ascii)
    (rest : string) (cap : option string) : option MatchState :=
  match k (mkState prev rest cap) with
  | Some r => Some r
  | None =>
      match rest with
      | String c rest' =>
          if p c then starLazy p k (Some c) rest' cap else None
      | EmptyString => None
      end
  end.

Definition atLineStart (st : MatchState) : bool :=
  match ms_prev st with
  | None => true
  | Some c => isLineTerminator c
  end.

Definition atLineEnd (st : MatchState) : bool :=
  match ms_rest st with
  | EmptyString => true
  | String c _ => isLineTerminator c
  end.

Fixpoint run (r : regex) (k : Cont) (st : MatchState) : option MatchState :=
  match r with
  | Eps => k st
  | Chr p =>
      match ms_rest st with
      | String c rest' =>
          if p c then k (mkState (Some c) rest' (ms_cap st)) else None
      | EmptyString => None
      end
  | Lit s => litMatch s k (ms_prev st) (ms_rest st) (ms_cap st)
  | Seq r1 r2 => run r1 (run r2 k) st
  | Alt r1 r2 =>
      match run r1 k st with
      | Some res => Some res
      | None => run r2 k st
      end
  | Star p => starGreedy p k (ms_prev st) (ms_rest st) (ms_cap st)
  | StarLazy p => starLazy p k (ms_prev st) (ms_rest st) (ms_cap st)
  | Group r' =>
      run r'
        (fun st' =>
           let n := (String.length (ms_rest st) - String.length (ms_rest st'))%nat in
           k (mkState (ms_prev st') (ms_rest st') (Some (take n (ms_rest st)))))
        st
  | Bol => if atLineStart st then k st else None
  | Eol => if atLineEnd st then k st else None
  end.

(** The result array of [exec]: [match.index], the length of [match[0]]
    and [match[1]]. *)
Record Match : Type := mkMatch {
  index : Z;
  matchLength : nat;
  group1 : string
}.

(** One attempt at a fixed start position. *)
Definition matchAt (r : regex) (prev : option ascii) (pos : Z)
    (rest : string) : option Match :=
  match run r Some (mkState prev rest None) with
  | Some st =>
      Some (mkMatch pos
              (String.length rest - String.length (ms_rest st))%nat
              (default EmptyString (ms_cap st)))
  | None => None
  end.

(** The loop [while ((match = pattern.exec(content)) !== null)] of a
    pattern with the g flag: the matches from left to right, each search
    resuming at [lastIndex], the end of the match before.  [skip] counts
    the code units still inside the last match. *)
Fixpoint execFrom (r : regex) (prev : option ascii) (pos : Z)
    (rest : string) (skip : nat) : list Match :=
  match skip with
  | S skip' =>
      match rest with
      | String c rest' => execFrom r (Some c) (pos + 1) rest' skip'
      | EmptyString => []
      end
  | O =>
      match matchAt r prev pos rest with
      | Some m =>
          m :: match rest with
               | String c rest' =>
                   execFrom r (Some c) (pos + 1) rest' (matchLength m - 1)
               | EmptyString => []
               end
      | None =>
          match rest with
          | String c rest' => execFrom r (Some c) (pos + 1) rest' 0
          | EmptyString => []
          end
      end
  end.

Definition execAll (r : regex) (content : string) : list Match :=
  execFrom r None 0 content 0.

(** A lower bound on the number of code units a match of [r] spans.  It is
positive for every pattern of the parsers, so [lastIndex] moves forward at
each turn of an [exec] loop. *)
Fixpoint minLength (r : regex) : nat :=
  match r with
  | Eps | Star _ | StarLazy _ | Bol | Eol => 0
  | Chr _ => 1
  | Lit s => String.length s
  | Seq r1 r2 => minLength r1 + minLength r2
  | Alt r1 r2 => Nat.min (minLength r1) (minLength r2)
  | Group r' => minLength r'
  end.

End RegExp.

Import RegExp.

(** ** Exceptions and the environment *)

Inductive JsError : Type :=
| Error (message : string)
| TypeError (message : string).

(** What a block of code does: it returns a value or throws.  The promise
    of an [async] function is described by the same type: fulfilled with
    the returned value, or rejected with the thrown error. *)
Inductive Outcome (A : Type) : Type :=
| Return (a : A)
| Throw (e : JsError).

Arguments Return {A} a.
Arguments Throw {A} e.

Definition bind {A B : Type} (m : Outcome A) (f : A -> Outcome B) : Outcome B :=
  match m with
  | Return a => f a
  | Throw e => Throw e
  end.

Notation "x <- m ;; k" := (bind m (fun x => k))
  (at level 100, m at next level, right associativity).

(** [try { body } catch (error) { handler }] *)
Definition tryCatch {A : Type} (body : Outcome A) (handler : JsError -> Outcome A)
  : Outcome A :=
  match body with
  | Return a => Return a
  | Throw e => handler e
  end.

(** Node's [path] module. *)
Class NodePath : Type := {
  path_join : string -> string -> string;
  path_resolve : string -> string;
  path_relative : string -> string -> string;
  path_basename : string -> string;
  path_extname : string -> string
}.

(** Node's [fs] module, as far as the code reads it. *)
Record FileSystem : Type := {
  existsSync : string -> bool;
  readFileSync : string -> Outcome string
}.

(** The [glob] package.  A call either settles before the 20 seconds of the
    timer it is raced against, or is still pending then. *)
Record GlobOptions : Type := {
  nodir : bool;
  ignore : list string
}.

Inductive GlobRun : Type :=
| GlobFound (files : list string)
| GlobFailed (e : JsError)
| GlobPending.

Record Env : Type := {
  fs : FileSystem;
  glob : list string -> GlobOptions -> GlobRun
}.

(** ** fileUtils.ts *)

Module FileUtils.
Section WithEnv.

Context `{NodePath} (env : Env).

Definition SUPPORTED_EXTENSIONS : list string :=
  [ ".js"; ".ts"; ".jsx"; ".tsx";
    ".py";
    ".java";
    ".cs";
    ".go";
    ".rb";
    ".php";
    ".swift";
    ".c"; ".cpp"; ".h"; ".hpp" ].

Definition readGitignore (dirPath : string) : list string :=
  let body :=
    let gitignorePath := path_join dirPath ".gitignore" in
    if negb (existsSync (fs env) gitignorePath) then Return []
    else
      content <- readFileSync (fs env) gitignorePath ;;
      Return
        (List.filter
           (fun line =>
              (0 <? Z.of_nat (String.length line)) && negb (startsWith line "#"))
           (List.map trim (splitLines content))) in
  match body with
  | Return lines => lines
  | Throw _ => []
  end.

Definition convertGitignorePatternsToGlob (patterns : list string)
    (basePath : string) : list string :=
  let normalizedBasePath := replaceBackslashes basePath in
  List.map
    (fun pattern =>
       let normalizedPattern :=
         if startsWith pattern "/" then substring1 pattern else pattern in
       let normalizedPattern :=
         if endsWith normalizedPattern "/" then normalizedPattern +:+ "**"
         else normalizedPattern in
       if startsWith normalizedPattern "!" then
         "!" +:+ normalizedBasePath +:+ "/" +:+ substring1 normalizedPattern
       else
         normalizedBasePath +:+ "/" +:+ normalizedPattern)
    patterns.

Definition commonIgnores (normalizedPath : string) : list string :=
  List.map (fun pattern => normalizedPath +:+ "/" +:+ pattern)
    [ "node_modules/**";
      "dist/**";
      ".git/**";
      "coverage/**";
      "build/**";
      ".cache/**";
      ".vscode/**";
      ".idea/**" ].

(** The list handed to [glob] as its [ignore] option. *)
Definition ignorePatterns (dirPath : string) : list string :=
  let normalizedPath := replaceBackslashes dirPath in
  convertGitignorePatternsToGlob (readGitignore dirPath) normalizedPath
    ++ commonIgnores normalizedPath.

Definition searchPatterns (dirPath : string) : list string :=
  let normalizedPath := replaceBackslashes dirPath in
  List.map (fun ext => normalizedPath +:+ "/**/*" +:+ ext) SUPPORTED_EXTENSIONS.

(** [Promise.race([glob(...), timeoutPromise])] *)
Definition raceWithTimeout (run : GlobRun) : Outcome (list string) :=
  match run with
  | GlobFound files => Return files
  | GlobFailed e => Throw e
  | GlobPending => Throw (Error "File search timed out after 20 seconds")
  end.

Definition getFilesInDirectory (dirPath : string) (maxDepth : Z)
  : Outcome (list string) :=
  tryCatch
    (files <- raceWithTimeout
                (glob env (searchPatterns dirPath)
                   {| nodir := true; ignore := ignorePatterns dirPath |}) ;;
     Return files)
    (fun _ => Return []).

Definition readFileContent (filePath : string) : string :=
  match readFileSync (fs env) filePath with
  | Return content => content
  | Throw _ => EmptyString
  end.

Definition getFileLanguage (filePath : string) : string :=
  let ext := toLowerCase (path_extname filePath) in
  if String.eqb ext ".js" || String.eqb ext ".jsx" then "javascript"
  else if String.eqb ext ".ts" || String.eqb ext ".tsx" then "typescript"
  else if String.eqb ext ".py" then "python"
  else if String.eqb ext ".java" then "java"
  else if String.eqb ext ".cs" then "csharp"
  else if String.eqb ext ".go" then "go"
  else if String.eqb ext ".rb" then "ruby"
  else if String.eqb ext ".php" then "php"
  else if String.eqb ext ".swift" then "swift"
  else if String.eqb ext ".c" || String.eqb ext ".h" then "c"
  else if String.eqb ext ".cpp" || String.eqb ext ".hpp" then "cpp"
  else "unknown".

End WithEnv.
End FileUtils.

Import FileUtils.

(** ** parsers/index.ts *)

Module Parsers.

Inductive EntityType : Type := function | class.

Record CodeEntity : Type := mkEntity {
  name : string;
  line : Z;
  file : string;
  relativePath : string;
  type : EntityType
}.

Definition EntityType_eqb (a b : EntityType) : bool :=
  match a, b with
  | function, function | class, class => true
  | _, _ => false
  end.

Declare Scope regex_scope.
Delimit Scope regex_scope with re.
Infix "⋅" := Seq (at level 40, left associativity) : regex_scope.
Infix "∣" := Alt (at level 50, left associativity) : regex_scope.

(** [\s], [.], [[^)]], [[a-zA-Z0-9_$]], [[a-zA-Z0-9_]] and [[a-zA-Z]] *)
Definition ws : ascii -> bool := isWhiteSpace.
Definition dot (c : ascii) : bool := negb (isLineTerminator c).
Definition notCloseParen (c : ascii) : bool := negb (Ascii.eqb c ")").
Definition identDollar (c : ascii) : bool :=
  isLetter c || isDigit c || Ascii.eqb c "_" || Ascii.eqb c "$".
Definition ident (c : ascii) : bool :=
  isLetter c || isDigit c || Ascii.eqb c "_".

(** Array indexing [a[i]]: [undefined] outside the array. *)
Definition at_ {A : Type} (a : list A) (i : Z) : option A :=
  if i <? 0 then None else a !! Z.to_nat i.

(** The loop that fills [linePositions]. *)
Fixpoint linePositionsFrom (position : Z) (lines : list string) : list Z :=
  match lines with
  | [] => []
  | l :: lines' =>
      position :: linePositionsFrom (position + Z.of_nat (String.length l) + 1) lines'
  end.

Definition computeLinePositions (content : string) : list Z :=
  linePositionsFrom 0 (splitLines content).

(** Comparisons of an array element with a number are false when the
    element is [undefined]. *)
Definition leU (x : option Z) (y : Z) : bool :=
  match x with Some v => v <=? y | None => false end.
Definition gtU (x : option Z) (y : Z) : bool :=
  match x with Some v => y <? v | None => false end.

(** The binary search [while (low <= high) { ... }] of [JSParser]: the
    index [mid] it breaks at, [Some None] when the loop ends without a
    hit, [None] when [fuel] iterations were not enough. *)
Fixpoint binarySearch (fuel : nat) (linePositions : list Z)
    (matchPosition low high : Z) : option (option Z) :=
  if high <? low then Some None
  else
    match fuel with
    | O => None
    | S fuel' =>
        let mid := (low + high) / 2 in
        if leU (at_ linePositions mid) matchPosition
           && ((mid =? Z.of_nat (length linePositions) - 1)
               || gtU (at_ linePositions (mid + 1)) matchPosition)
        then Some (Some mid)
        else if gtU (at_ linePositions mid) matchPosition
        then binarySearch fuel' linePositions matchPosition low (mid - 1)
        else binarySearch fuel' linePositions matchPosition (mid + 1) high
    end.

(** The search from [low = 0] and [high = linePositions.length - 1]; the
    interval shrinks at every turn, so [linePositions.length] turns are
    enough (lemma [binarySearch_terminates]). *)
Definition searchLine (linePositions : list Z) (matchPosition : Z) : option Z :=
  match binarySearch (length linePositions) linePositions matchPosition
          0 (Z.of_nat (length linePositions) - 1) with
  | Some hit => hit
  | None => None
  end.

(** [content.substring(0, index).split('\n').length] *)
Definition lineOfPrefix (content : string) (index : Z) : Z :=
  Z.of_nat (length (splitLines (take (Z.to_nat index) content))).

Section WithEnv.

Context `{NodePath} (env : Env).

(** *** JSParser *)

Definition js_functionPatterns : list regex :=
  [ (* function \s+ ([a-zA-Z0-9_$]+) \s* \(   with flag g *)
    (Lit "function" ⋅ Plus ws ⋅ Group (Plus identDollar) ⋅ Star ws ⋅ Lit "(")%re;
    (* (?:const|let|var) \s+ ([a-zA-Z0-9_$]+) \s* = \s* (?:async \s* )? \( .*? \) \s* =>
       with flag g *)
    ((Lit "const" ∣ Lit "let" ∣ Lit "var") ⋅ Plus ws ⋅ Group (Plus identDollar)
       ⋅ Star ws ⋅ Lit "=" ⋅ Star ws ⋅ Opt (Lit "async" ⋅ Star ws)
       ⋅ Lit "(" ⋅ StarLazy dot ⋅ Lit ")" ⋅ Star ws ⋅ Lit "=>")%re;
    (* ([a-zA-Z0-9_$]+) \s* \( [^)]* \) \s* {   with flag g *)
    (Group (Plus identDollar) ⋅ Star ws ⋅ Lit "(" ⋅ Star notCloseParen
       ⋅ Lit ")" ⋅ Star ws ⋅ Lit "{")%re ].

Definition reservedWords : gset string :=
  {[ "if"; "for"; "while"; "switch"; "catch" ]}.

Definition has (s : gset string) (x : string) : bool := bool_decide (x ∈ s).

(** The body of [while ((match = pattern.exec(content)) !== null)] in
    [findFunctions]. *)
Definition js_functionStep (linePositions : list Z)
    (filePath relativePath : string)
    (entities : list CodeEntity) (m : Match) : list CodeEntity :=
  let functionName := group1 m in
  if has reservedWords functionName then entities
  else
    let matchPosition := index m in
    let lineNumber :=
      match searchLine linePositions matchPosition with
      | Some mid => mid + 1
      | None => 1
      end in
    entities ++ [ {| name := functionName;
                     line := lineNumber;
                     file := path_basename filePath;
                     relativePath := relativePath;
                     type := function |} ].

Definition js_findFunctions (content filePath relativePath : string)
    (entities : list CodeEntity) : list CodeEntity :=
  let linePositions := computeLinePositions content in
  fold_left
    (fun entities pattern =>
       fold_left (js_functionStep linePositions filePath relativePath)
         (execAll pattern content) entities)
    js_functionPatterns entities.

(** (?:^|\s) class \s+ ([a-zA-Z] [a-zA-Z0-9_$]* ) (?:\s|\{|$)   with flags g and m *)
Definition js_classPattern : regex :=
  ((Bol ∣ Chr ws) ⋅ Lit "class" ⋅ Plus ws
     ⋅ Group (Chr isLetter ⋅ Star identDollar)
     ⋅ (Chr ws ∣ Lit "{" ∣ Eol))%re.

(** The test that skips a match of the class pattern, on the text of
    its line. *)
Definition js_rejectLine (lineContent : string) : bool :=
  startsWith (trim lineContent) "//"
  || (includes lineContent (String dquote "class")
      && negb (includes lineContent "class "))
  || (includes lineContent (String squote "class")
      && negb (includes lineContent "class ")).

(** The class loop; [lineContent.trim()] throws a [TypeError] when
    [lines[lineNumber]] is [undefined]. *)
Fixpoint js_classLoop (linePositions : list Z) (lines : list string)
    (filePath relativePath : string) (matches : list Match)
    (foundClasses : gset string) (entities : list CodeEntity)
  : Outcome (list CodeEntity) :=
  match matches with
  | [] => Return entities
  | m :: matches' =>
      let continue_ := js_classLoop linePositions lines filePath relativePath matches' in
      let className := group1 m in
      let classKey := className +:+ ":" +:+ filePath in
      if has foundClasses classKey then continue_ foundClasses entities
      else
        let matchPosition := index m in
        let lineNumber :=
          match searchLine linePositions matchPosition with
          | Some mid => mid
          | None => 0
          end in
        match at_ lines lineNumber with
        | None => Throw (TypeError "Cannot read properties of undefined (reading 'trim')")
        | Some lineContent =>
            if js_rejectLine lineContent then continue_ foundClasses entities
            else
              continue_ ({[ classKey ]} ∪ foundClasses)
                (entities ++ [ {| name := className;
                                  line := lineNumber + 1;
                                  file := path_basename filePath;
                                  relativePath := relativePath;
                                  type := class |} ])
        end
  end.

Definition js_findClasses (content filePath relativePath : string)
    (entities : list CodeEntity) : Outcome (list CodeEntity) :=
  let linePositions :=
    if (Z.of_nat (length entities) =? 0) then computeLinePositions content
    else [] in
  let lines := splitLines content in
  js_classLoop linePositions lines filePath relativePath
    (execAll js_classPattern content) ∅ entities.

Definition relativeTo (basePath filePath : string) : string :=
  match basePath with
  | EmptyString => filePath
  | _ => path_relative basePath filePath
  end.

Definition js_parseFile (filePath basePath : string) : Outcome (list CodeEntity) :=
  let content := readFileContent env filePath in
  let entities := [] in
  let relativePath := relativeTo basePath filePath in
  let entities := js_findFunctions content filePath relativePath entities in
  js_findClasses content filePath relativePath entities.

(** *** PythonParser *)

(** def \s+ ([a-zA-Z0-9_]+) \s* \(   with flag g *)
Definition py_functionPattern : regex :=
  (Lit "def" ⋅ Plus ws ⋅ Group (Plus ident) ⋅ Star ws ⋅ Lit "(")%re.

(** The loop body shared by [PythonParser.findFunctions] and
    [GoParser.findFunctions]. *)
Definition prefixFunctionStep (contentCopy filePath relativePath : string)
    (entities : list CodeEntity) (m : Match) : list CodeEntity :=
  let functionName := group1 m in
  let lineNumber := lineOfPrefix contentCopy (index m) in
  entities ++ [ {| name := functionName;
                   line := lineNumber;
                   file := path_basename filePath;
                   relativePath := relativePath;
                   type := function |} ].

Definition py_findFunctions (content filePath relativePath : string)
    (entities : list CodeEntity) : list CodeEntity :=
  let contentCopy := content in
  fold_left (prefixFunctionStep contentCopy filePath relativePath)
    (execAll py_functionPattern contentCopy) entities.

(** class \s+ ([a-zA-Z0-9_]+) \s* (?: \( .* \) )? \s* :   with flag g *)
Definition py_classPattern : regex :=
  (Lit "class" ⋅ Plus ws ⋅ Group (Plus ident) ⋅ Star ws
     ⋅ Opt (Lit "(" ⋅ Star dot ⋅ Lit ")") ⋅ Star ws ⋅ Lit ":")%re.

Definition py_rejectLine (lineContent : string) : bool :=
  startsWith (trim lineContent) "#"
  || (includes lineContent (String dquote "class")
      && negb (includes lineContent "class "))
  || (includes lineContent (String squote "class")
      && negb (includes lineContent "class ")).

Fixpoint py_classLoop (content : string) (lines : list string)
    (filePath relativePath : string) (matches : list Match)
    (foundClasses : gset string) (entities : list CodeEntity)
  : Outcome (list CodeEntity) :=
  match matches with
  | [] => Return entities
  | m :: matches' =>
      let continue_ := py_classLoop content lines filePath relativePath matches' in
      let className := group1 m in
      let classKey := className +:+ ":" +:+ filePath in
      if has foundClasses classKey then continue_ foundClasses entities
      else
        let lineNumber := lineOfPrefix content (index m) in
        lineContent <-
          (if (0 <? lineNumber) && (lineNumber <=? Z.of_nat (length lines)) then
             match at_ lines (lineNumber - 1) with
             | Some l => Return l
             | None => Throw (TypeError "Cannot read properties of undefined (reading 'trim')")
             end
           else Return EmptyString) ;;
        if py_rejectLine lineContent then continue_ foundClasses entities
        else
          continue_ ({[ classKey ]} ∪ foundClasses)
            (entities ++ [ {| name := className;
                              line := lineNumber;
                              file := path_basename filePath;
                              relativePath := relativePath;
                              type := class |} ])
  end.

Definition py_findClasses (content filePath relativePath : string)
    (entities : list CodeEntity) : Outcome (list CodeEntity) :=
  let lines := splitLines content in
  py_classLoop content lines filePath relativePath
    (execAll py_classPattern content) ∅ entities.

Definition py_parseFile (filePath basePath : string) : Outcome (list CodeEntity) :=
  let content := readFileContent env filePath in
  let entities := [] in
  let relativePath := relativeTo basePath filePath in
  let entities := py_findFunctions content filePath relativePath entities in
  py_findClasses content filePath relativePath entities.

(** *** GoParser *)

(** func \s+ (?: \( [^)]* \) \s+ )? ([a-zA-Z0-9_]+) \s* \(   with flag g *)
Definition go_functionPattern : regex :=
  (Lit "func" ⋅ Plus ws
     ⋅ Opt (Lit "(" ⋅ Star notCloseParen ⋅ Lit ")" ⋅ Plus ws)
     ⋅ Group (Plus ident) ⋅ Star ws ⋅ Lit "(")%re.

Definition go_findFunctions (content filePath relativePath : string)
    (entities : list CodeEntity) : list CodeEntity :=
  let contentCopy := content in
  fold_left (prefixFunctionStep contentCopy filePath relativePath)
    (execAll go_functionPattern contentCopy) entities.

Definition go_parseFile (filePath basePath : string) : Outcome (list CodeEntity) :=
  let content := readFileContent env filePath in
  let entities := [] in
  let relativePath := relativeTo basePath filePath in
  Return (go_findFunctions content filePath relativePath entities).

(** *** The [Parser] interface and its three classes *)

Inductive Parser : Type := JSParser | PythonParser | GoParser.

Definition parseFile (parser : Parser) (filePath basePath : string)
  : Outcome (list CodeEntity) :=
  match parser with
  | JSParser => js_parseFile filePath basePath
  | PythonParser => py_parseFile filePath basePath
  | GoParser => go_parseFile filePath basePath
  end.

(** [Parser | null]; the unsupported languages fall back on [JSParser]. *)
Definition getParserForFile (filePath : string) : option Parser :=
  let language := getFileLanguage filePath in
  if String.eqb language "javascript" || String.eqb language "typescript"
  then Some JSParser
  else if String.eqb language "python" then Some PythonParser
  else if String.eqb language "go" then Some GoParser
  else Some JSParser.

End WithEnv.
End Parsers.

Import Parsers.

(** ** analyzers/functions.ts and analyzers/classes.ts *)

Module Analyzers.
Section WithEnv.

Context `{NodePath} (env : Env).

(** The loop [for (const file of files)] of both analyzers; [keep] is the
    entity type the [filter] call retains. *)
Fixpoint forFiles (keep : EntityType) (normalizedPath : string)
    (files : list string) (all : list CodeEntity) : Outcome (list CodeEntity) :=
  match files with
  | [] => Return all
  | file :: files' =>
      match getParserForFile file with
      | Some parser =>
          entities <- parseFile env parser file normalizedPath ;;
          forFiles keep normalizedPath files'
            (all ++ List.filter (fun entity => EntityType_eqb (type entity) keep) entities)
      | None => forFiles keep normalizedPath files' all
      end
  end.

Definition analyze (keep : EntityType) (dirPath : string) (maxDepth : Z)
  : Outcome (list CodeEntity) :=
  tryCatch
    (let normalizedPath := path_resolve dirPath in
     files <- getFilesInDirectory env normalizedPath maxDepth ;;
     forFiles keep normalizedPath files [])
    (fun _ => Return []).

Definition getFunctions (dirPath : string) (maxDepth : Z)
  : Outcome (list CodeEntity) :=
  analyze function dirPath maxDepth.

Definition getClasses (dirPath : string) (maxDepth : Z)
  : Outcome (list CodeEntity) :=
  analyze class dirPath maxDepth.

End WithEnv.
End Analyzers.

Import Analyzers.

(** ** A concrete environment

A reading of Node's [path] functions on absolute, normalised POSIX
paths, a file system given by a table of files, and a [glob] that
answers for the pattern shapes [getFilesInDirectory] builds
([root/**/*ext] to search, [dir/**] to ignore).  They serve to run the
code on examples. *)

Module Fixtures.

Fixpoint afterLastSlash (s : string) : string :=
  match s with
  | EmptyString => EmptyString
  | String c s' =>
      if includes s' "/" then afterLastSlash s'
      else if Ascii.eqb c "/" then s' else s
  end.

Fixpoint fromLastDot (s : string) : string :=
  match s with
  | EmptyString => EmptyString
  | String c s' =>
      if includes s' "." then fromLastDot s'
      else if Ascii.eqb c "." then s else EmptyString
  end.

Fixpoint dropUnits (n : nat) (s : string) : string :=
  match n, s with
  | S n', String _ s' => dropUnits n' s'
  | _, _ => s
  end.

#[export] Instance posixPath : NodePath := {|
  path_join a b := a +:+ "/" +:+ b;
  path_resolve a := a;
  path_relative base p :=
    if startsWith p (base +:+ "/") then dropUnits (S (String.length base)) p else p;
  path_basename p := afterLastSlash p;
  path_extname p := fromLastDot (substring1 (afterLastSlash p))
|}.

(** The files of a tree: path and text. *)
Definition Tree : Type := list (string * string).

Fixpoint lookupFile (tree : Tree) (p : string) : option string :=
  match tree with
  | [] => None
  | (q, text) :: tree' => if String.eqb p q then Some text else lookupFile tree' p
  end.

Definition treeFs (tree : Tree) : FileSystem := {|
  existsSync p := match lookupFile tree p with Some _ => true | None => false end;
  readFileSync p :=
    match lookupFile tree p with
    | Some text => Return text
    | None => Throw (Error "ENOENT: no such file or directory")
    end
|}.

(** The text before and after the first occurrence of [sep] in [s]. *)
Fixpoint cut (sep s : string) : option (string * string) :=
  if String.prefix sep s then Some (EmptyString, dropUnits (String.length sep) s)
  else
    match s with
    | EmptyString => None
    | String c s' =>
        match cut sep s' with
        | Some (before, after) => Some (String c before, after)
        | None => None
        end
    end.

Definition matchesSearch (p pattern : string) : bool :=
  match cut "/**/*" pattern with
  | Some (root, ext) => startsWith p (root +:+ "/") && endsWith p ext
  | None => false
  end.

Definition matchesIgnore (p pattern : string) : bool :=
  endsWith pattern "/**"
  && startsWith p (take (String.length pattern - 2) pattern).

Definition treeGlob (tree : Tree) (patterns : list string) (options : GlobOptions)
  : GlobRun :=
  GlobFound
    (List.filter
       (fun p => existsb (matchesSearch p) patterns
                 && negb (existsb (matchesIgnore p) (ignore options)))
       (List.map fst tree)).

Definition treeEnv (tree : Tree) : Env :=
  {| fs := treeFs tree; glob := treeGlob tree |}.

(** The same tree behind a [glob] that has not settled when the timer
    fires. *)
Definition slowEnv (tree : Tree) : Env :=
  {| fs := treeFs tree; glob := fun _ _ => GlobPending |}.

(** A tree whose files are listed but cannot be read. *)
Definition unreadableEnv (files : list string) : Env :=
  {| fs := {| existsSync := fun _ => false;
              readFileSync := fun _ => Throw (Error "EACCES: permission denied") |};
     glob := fun _ _ => GlobFound files |}.

(** A tree in which [glob] lists the paths [listed], whether or not they
    can be read. *)
Definition listedEnv (tree : Tree) (listed : list string) : Env :=
  {| fs := treeFs tree; glob := fun _ _ => GlobFound listed |}.

(** The sample file of the test directory. *)
Definition sample_js : string := unlines
  [ "// Example JavaScript file with functions and classes";
    "";
    "// Function declaration";
    "function calculateTotal(items) {";
    "  return items.reduce((total, item) => total + item.price, 0);";
    "}";
    "";
    "// Arrow function";
    "const formatPrice = (price) => {";
    "  return `$${price.toFixed(2)}`;";
    "};";
    "";
    "// Class declaration";
    "class ShoppingCart {";
    "  constructor() {";
    "    this.items = [];";
    "  }";
    "";
    "  addItem(item) {";
    "    this.items.push(item);";
    "  }";
    "";
    "  removeItem(id) {";
    "    const index = this.items.findIndex(item => item.id === id);";
    "    if (index !== -1) {";
    "      this.items.splice(index, 1);";
    "    }";
    "  }";
    "";
    "  getTotal() {";
    "    return calculateTotal(this.items);";
    "  }";
    "}";
    "";
    "// Another class";
    "class Product {";
    "  constructor(id, name, price) {";
    "    this.id = id;";
    "    this.name = name;";
    "    this.price = price;";
    "  }";
    "";
    "  display() {";
    "    return `${this.name}: ${formatPrice(this.price)}`;";
    "  }";
    "}" ].

(** A file with [function calculateTotal] on line 4 and
    [class ShoppingCart] on line 13. *)
Definition cart_js : string := unlines
  [ "const TAX_RATE = 0.2;";
    "";
    "// Function declaration";
    "function calculateTotal(items) {";
    "  return items.length * TAX_RATE;";
    "}";
    "";
    "const EMPTY = [];";
    "";
    "const LIMIT = 10;";
    "";
    "";
    "class ShoppingCart {";
    "}" ].

(** A file without functions, its class at the start of line 2. *)
Definition plain_js : string := unlines
  [ "let x = 1;";
    "class Foo {}" ].

Definition commented_js : string := unlines
  [ "function f() {}";
    "// class Foo" ].

Definition quoted_js : string :=
  "const s = " +:+ String dquote "a class Bar " +:+ String dquote ";".

Definition nested_js : string := "function deep() {}".

End Fixtures.

Import Fixtures.

(** ** Notions used to state the properties *)

Definition isClass (e : CodeEntity) : Prop := type e = class.

Definition isAllowedFunction (e : CodeEntity) : Prop :=
  type e = function /\ name e ∉ reservedWords.

(** The key of a record within a scan. *)
Definition triple (e : CodeEntity) : string * EntityType * string :=
  (name e, type e, relativePath e).

(** Whether [readFileSync] returns the text of a file. *)
Definition canRead (env : Env) (filePath : string) : bool :=
  match readFileSync (fs env) filePath with
  | Return _ => true
  | Throw _ => false
  end.

(** The rules of the ignore-rule translator, as the specification words
    them: a pattern loses a single leading slash, a pattern that then ends
    in a slash is extended by the recursive wildcard, and the result is
    qualified by the root, as a re-inclusion when it starts with a bang and
    as an exclusion otherwise. *)
Inductive IgnoreRule : Type :=
| Exclude (globText : string)
| Reinclude (globText : string).

Definition ruleText (rule : IgnoreRule) : string :=
  match rule with
  | Exclude g => g
  | Reinclude g => "!" +:+ g
  end.

Inductive stripLeadingSlash : string -> string -> Prop :=
| strip_slash (rest : string) : stripLeadingSlash (String "/" rest) rest
| strip_nothing (pattern : string) :
    (forall rest, pattern <> String "/" rest) -> stripLeadingSlash pattern pattern.

Inductive directoryScoped : string -> string -> Prop :=
| scoped_subtree (dir : string) :
    directoryScoped (dir +:+ "/") ((dir +:+ "/") +:+ "**")
| scoped_as_is (pattern : string) :
    (forall dir, pattern <> dir +:+ "/") -> directoryScoped pattern pattern.

Inductive rootQualified (root : string) : string -> IgnoreRule -> Prop :=
| qualified_reinclusion (rest : string) :
    rootQualified root (String "!" rest) (Reinclude (root +:+ "/" +:+ rest))
| qualified_exclusion (pattern : string) :
    (forall rest, pattern <> String "!" rest) ->
    rootQualified root pattern (Exclude (root +:+ "/" +:+ pattern)).

Inductive translates (root pattern : string) (rule : IgnoreRule) : Prop :=
| translates_steps (stripped scoped : string) :
    stripLeadingSlash pattern stripped ->
    directoryScoped stripped scoped ->
    rootQualified root scoped rule ->
    translates root pattern rule.

(** The fixed default exclusions under a root. *)
Definition defaultExclusions (root : string) : list string :=
  [ root +:+ "/node_modules/**";
    root +:+ "/dist/**";
    root +:+ "/.git/**";
    root +:+ "/coverage/**";
    root +:+ "/build/**";
    root +:+ "/.cache/**";
    root +:+ "/.vscode/**";
    root +:+ "/.idea/**" ].

(** ** More of fileUtils.ts and of the analyzers, and notions for their properties *)

(** Whether every code unit of [s] lies in the class [q]. *)
Fixpoint allUnits (q : ascii -> bool) (s : string) : bool :=
  match s with
  | EmptyString => true
  | String c s' => q c && allUnits q s'
  end.

(** A text without line break. *)
Definition singleLine (s : string) : bool :=
  allUnits (fun c => negb (Ascii.eqb c newline)) s.

(** Patterns without capture group. *)
Fixpoint groupFree (r : regex) : bool :=
  match r with
  | Group _ => false
  | Seq r1 r2 | Alt r1 r2 => groupFree r1 && groupFree r2
  | _ => true
  end.

(** Patterns made of classes within [q] only. *)
Fixpoint unitsWithin (q : ascii -> bool) (r : regex) : Prop :=
  match r with
  | Eps => True
  | Chr p | Star p | StarLazy p => forall c, p c = true -> q c = true
  | Seq r1 r2 => unitsWithin q r1 /\ unitsWithin q r2
  | _ => False
  end.

(** Patterns whose last capture group on every path is a non-empty run of
    classes within [q]. *)
Fixpoint capturesName (q : ascii -> bool) (r : regex) : Prop :=
  match r with
  | Group g => unitsWithin q g /\ (0 < minLength g)%nat
  | Seq r1 r2 => (capturesName q r1 /\ groupFree r2 = true) \/ capturesName q r2
  | _ => False
  end.

(** The patterns of the three parsers. *)
Definition sourcePatterns : list regex :=
  js_functionPatterns
    ++ [js_classPattern; py_functionPattern; py_classPattern; go_functionPattern].

Section Stems.
Context `{NodePath}.

(** What the parsers say of a record: the match it stems from, the file
    it is attributed to and its line. *)
Definition stemsFrom (patterns : list regex) (content filePath rel : string)
    (e : CodeEntity) : Prop :=
  exists pattern m,
    In pattern patterns /\ In m (execAll pattern content)
    /\ name e = group1 m
    /\ file e = path_basename filePath
    /\ relativePath e = rel
    /\ 1 <= line e <= Z.of_nat (length (splitLines content)).

End Stems.

(** [getLineContent] of fileUtils.ts; [lines[lineNumber]] is defined under
    the test of the bounds. *)
Definition getLineContent (content : string) (lineNumber : Z) : string :=
  let lines := splitLines content in
  if (0 <=? lineNumber) && (lineNumber <? Z.of_nat (length lines)) then
    default EmptyString (lines !! Z.to_nat lineNumber)
  else EmptyString.

(** [Number.MAX_SAFE_INTEGER]. *)
Definition MAX_SAFE_INTEGER : Z := 9007199254740991.

(** The decimal digits of an integer, with a minus sign below zero. *)
Definition decimal (n : Z) : string := NilZero.string_of_int (Z.to_int n).

(** The text of a number in a template literal.  An integer is printed by
    its decimal digits as long as it is a safe integer; beyond, the
    language prints a rounded value, and from 1e21 on an exponent form:
    these numbers are left out, the result is [None]. *)
Definition numberToString (n : Z) : option string :=
  if Z.abs n <=? MAX_SAFE_INTEGER then Some (decimal n) else None.

(** [table += row + newline], where the row could be printed. *)
Definition appendRow (table row : option string) : option string :=
  match table, row with
  | Some t, Some r => Some (t +:+ (r +:+ String newline EmptyString))
  | _, _ => None
  end.

Definition functionRow (func : CodeEntity) : option string :=
  match numberToString (line func) with
  | Some lineText =>
      Some ("function " +:+ name func +:+ " | " +:+ lineText +:+ " | "
              +:+ file func +:+ " | " +:+ relativePath func)
  | None => None
  end.

Definition formatFunctionsTable (functions : list CodeEntity) : option string :=
  if Z.of_nat (length functions) =? 0 then Some "No functions found."
  else
    let table := "function | line | file | path" +:+ String newline EmptyString in
    let table := table +:+ "---------|------|------|------" +:+ String newline EmptyString in
    fold_left (fun table func => appendRow table (functionRow func))
      functions (Some table).

Definition classRow (cls : CodeEntity) : option string :=
  match numberToString (line cls) with
  | Some lineText =>
      Some ("class " +:+ name cls +:+ " | " +:+ lineText +:+ " | "
              +:+ file cls +:+ " | " +:+ relativePath cls)
  | None => None
  end.

Definition formatClassesTable (classes : list CodeEntity) : option string :=
  if Z.of_nat (length classes) =? 0 then Some "No classes found."
  else
    let table := "class | line | file | path" +:+ String newline EmptyString in
    let table := table +:+ "------|------|------|------" +:+ String newline EmptyString in
    fold_left (fun table cls => appendRow table (classRow cls))
      classes (Some table).

(** A record whose line is a safe integer and whose texts hold no line
    break. *)
Definition printable (e : CodeEntity) : Prop :=
  Z.abs (line e) <= MAX_SAFE_INTEGER
  /\ singleLine (name e) = true
  /\ singleLine (file e) = true
  /\ singleLine (relativePath e) = true.

(** A text that does not begin with white space. *)
Definition startsClean (s : string) : bool :=
  match s with
  | EmptyString => true
  | String c _ => negb (isWhiteSpace c)
  end.

(** The rows of a table, each closed by a line break. *)
Fixpoint rowsText (rows : list string) : string :=
  match rows with
  | [] => EmptyString
  | row :: rows' => (row +:+ String newline EmptyString) +:+ rowsText rows'
  end.


Section ScanNotions.
Context `{NodePath}.

(** What the parser chosen for [file] returns. *)
Definition parsedAs (env : Env) (base file : string) (entities : list CodeEntity) : Prop :=
  exists parser,
    getParserForFile file = Some parser
    /\ parseFile env parser file base = Return entities.

Definition keepType (keep : EntityType) (entities : list CodeEntity) : list CodeEntity :=
  List.filter (fun entity => EntityType_eqb (type entity) keep) entities.

(** What a parser makes of a text: the finders of its [parseFile], run on
    [content]. *)
Definition parseContent (parser : Parser) (content filePath relativePath : string)
  : Outcome (list CodeEntity) :=
  match parser with
  | JSParser =>
      js_findClasses content filePath relativePath
        (js_findFunctions content filePath relativePath [])
  | PythonParser =>
      py_findClasses content filePath relativePath
        (py_findFunctions content filePath relativePath [])
  | GoParser => Return (go_findFunctions content filePath relativePath [])
  end.

(** The records of a file that can be read: what the parser chosen for it
    makes of the text [readFileSync] returns. *)
Definition readAndParsed (env : Env) (base file : string)
    (entities : list CodeEntity) : Prop :=
  exists parser text,
    getParserForFile file = Some parser
    /\ readFileSync (fs env) file = Return text
    /\ parseContent parser text file (relativeTo base file) = Return entities.

End ScanNotions.

(** * Properties *)

(** ** Matches are never empty *)

Lemma litMatch_consumes (lit : string) (k : Cont) (prev : option ascii)
    (rest : string) (cap : option string) (res : MatchState) :
  litMatch lit k prev rest cap = Some res ->
  exists st, k st = Some res
             /\ (String.length (ms_rest st) + String.length lit
                 <= String.length rest)%nat.
Proof.
  revert prev rest.
  induction lit as [|a lit IH]; intros prev rest; simpl.
  - intros Hk. eexists. split; [exact Hk | simpl; lia].
  - destruct rest as [|c rest]; [discriminate|].
    destruct (Ascii.eqb a c); [|discriminate].
    intros Hrec. apply IH in Hrec as (st & Hk & Hlen).
    exists st. split; [exact Hk | simpl; lia].
Qed.

Lemma starGreedy_consumes (p : ascii -> bool) (k : Cont) (prev : option ascii)
    (rest : string) (cap : option string) (res : MatchState) :
  starGreedy p k prev rest cap = Some res ->
  exists st, k st = Some res
             /\ (String.length (ms_rest st) <= String.length rest)%nat.
Proof.
  revert prev.
  induction rest as [|c rest IH]; intros prev; simpl.
  - intros Hk. eexists. split; [exact Hk | simpl; lia].
  - destruct (p c).
    + destruct (starGreedy p k (Some c) rest cap) as [r|] eqn:Hrec.
      * intros [= <-]. apply IH in Hrec as (st & Hk & Hlen).
        exists st. split; [exact Hk | lia].
      * intros Hk. eexists. split; [exact Hk | simpl; lia].
    + intros Hk. eexists. split; [exact Hk | simpl; lia].
Qed.

Lemma starLazy_consumes (p : ascii -> bool) (k : Cont) (prev : option ascii)
    (rest : string) (cap : option string) (res : MatchState) :
  starLazy p k prev rest cap = Some res ->
  exists st, k st = Some res
             /\ (String.length (ms_rest st) <= String.length rest)%nat.
Proof.
  revert prev.
  induction rest as [|c rest IH]; intros prev; simpl.
  - destruct (k (mkState prev EmptyString cap)) as [r|] eqn:Hk; [|discriminate].
    intros [= <-]. eexists. split; [exact Hk | simpl; lia].
  - destruct (k (mkState prev (String c rest) cap)) as [r|] eqn:Hk.
    + intros [= <-]. eexists. split; [exact Hk | simpl; lia].
    + destruct (p c); [|discriminate].
      intros Hrec. apply IH in Hrec as (st & Hk' & Hlen).
      exists st. split; [exact Hk' | lia].
Qed.

(** A successful run hands its continuation a position at least
    [minLength r] code units further on. *)
Lemma run_consumes (r : regex) (k : Cont) (st : MatchState) (res : MatchState) :
  run r k st = Some res ->
  exists st', k st' = Some res
              /\ (String.length (ms_rest st') + minLength r
                  <= String.length (ms_rest st))%nat.
Proof.
  revert k st.
  induction r as [|p|s|r1 IH1 r2 IH2|r1 IH1 r2 IH2|p|p|r IH| |];
    intros k st; simpl.
  - intros Hk. exists st. split; [exact Hk | lia].
  - destruct st as [prev [|c rest] cap]; simpl; [discriminate|].
    destruct (p c); [|discriminate].
    intros Hk. eexists. split; [exact Hk | simpl; lia].
  - apply litMatch_consumes.
  - intros Hrun. apply IH1 in Hrun as (st1 & Hrun & Hlen1).
    apply IH2 in Hrun as (st2 & Hk & Hlen2).
    exists st2. split; [exact Hk | lia].
  - destruct (run r1 k st) as [res1|] eqn:Hfirst.
    + intros [= <-]. apply IH1 in Hfirst as (st1 & Hk & Hlen).
      exists st1. split; [exact Hk | lia].
    + intros Hsecond. apply IH2 in Hsecond as (st2 & Hk & Hlen).
      exists st2. split; [exact Hk | lia].
  - intros Hrun. apply starGreedy_consumes in Hrun as (st' & Hk & Hlen).
    exists st'. split; [exact Hk | lia].
  - intros Hrun. apply starLazy_consumes in Hrun as (st' & Hk & Hlen).
    exists st'. split; [exact Hk | lia].
  - intros Hrun. apply IH in Hrun as (st1 & Hk & Hlen).
    eexists. split; [exact Hk | simpl; lia].
  - destruct (atLineStart st); [|discriminate].
    intros Hk. exists st. split; [exact Hk | lia].
  - destruct (atLineEnd st); [|discriminate].
    intros Hk. exists st. split; [exact Hk | lia].
Qed.

Lemma matchAt_length (r : regex) (prev : option ascii) (pos : Z) (rest : string)
    (m : Match) :
  matchAt r prev pos rest = Some m ->
  index m = pos
  /\ (minLength r <= matchLength m <= String.length rest)%nat.
Proof.
  unfold matchAt.
  destruct (run r Some (mkState prev rest None)) as [st|] eqn:Hrun; [|discriminate].
  intros [= <-]. simpl.
  apply run_consumes in Hrun as (st' & [= ->] & Hlen). simpl in Hlen.
  split; [reflexivity | lia].
Qed.

(** Every match of an [exec] loop lies within the text and spans at least
    [minLength r] code units. *)
Lemma execFrom_matches (r : regex) (prev : option ascii) (pos : Z) (rest : string)
    (skip : nat) (m : Match) :
  In m (execFrom r prev pos rest skip) ->
  pos <= index m
  /\ index m + Z.of_nat (matchLength m) <= pos + Z.of_nat (String.length rest)
  /\ (minLength r <= matchLength m)%nat.
Proof.
  revert prev pos skip.
  induction rest as [|c rest IH]; intros prev pos skip; simpl.
  - destruct skip as [|skip]; [|intros []].
    destruct (matchAt r prev pos EmptyString) as [m'|] eqn:Hat; [|intros []].
    intros [<- | []]. apply matchAt_length in Hat as (-> & Hmin & Hmax).
    simpl in Hmax. simpl. lia.
  - destruct skip as [|skip].
    + destruct (matchAt r prev pos (String c rest)) as [m'|] eqn:Hat.
      * intros [<- | Hin].
        -- apply matchAt_length in Hat as (-> & Hmin & Hmax).
           simpl in Hmax. simpl. lia.
        -- apply IH in Hin. simpl. lia.
      * intros Hin. apply IH in Hin. simpl. lia.
    + intros Hin. apply IH in Hin. simpl. lia.
Qed.

Lemma execAll_matches (r : regex) (content : string) (m : Match) :
  In m (execAll r content) ->
  0 <= index m
  /\ index m + Z.of_nat (matchLength m) <= Z.of_nat (String.length content)
  /\ (minLength r <= matchLength m)%nat.
Proof. unfold execAll. intros Hin. apply execFrom_matches in Hin. lia. Qed.

(** No pattern of the three parsers can match the empty string. *)
Lemma source_patterns_consume :
  Forall (fun r => (0 < minLength r)%nat)
    (js_functionPatterns
       ++ [js_classPattern; py_functionPattern; py_classPattern; go_functionPattern]).
Proof. repeat constructor; simpl; lia. Qed.

(** ** The binary search of [JSParser] *)

Lemma midpoint_bounds (low high : Z) :
  low <= high -> low <= (low + high) / 2 <= high.
Proof.
  intros Hle. split.
  - apply Z.div_le_lower_bound; lia.
  - apply Z.div_le_upper_bound; lia.
Qed.

(** The loop ends within [high - low + 1] turns. *)
Lemma binarySearch_terminates (fuel : nat) (lp : list Z) (pos low high : Z) :
  high - low + 1 <= Z.of_nat fuel ->
  exists hit, binarySearch fuel lp pos low high = Some hit.
Proof.
  revert low high.
  induction fuel as [|fuel IH]; intros low high Hfuel; simpl.
  - destruct (high <? low) eqn:Hcmp; [eauto|].
    apply Z.ltb_ge in Hcmp. lia.
  - destruct (high <? low) eqn:Hcmp; [eauto|].
    apply Z.ltb_ge in Hcmp.
    pose proof (midpoint_bounds low high Hcmp) as Hmid.
    destruct (leU _ _ && _); [eauto|].
    destruct (gtU _ _); apply IH; lia.
Qed.

(** A hit lies between the bounds. *)
Lemma binarySearch_range (fuel : nat) (lp : list Z) (pos low high mid : Z) :
  binarySearch fuel lp pos low high = Some (Some mid) ->
  low <= mid <= high.
Proof.
  revert low high.
  induction fuel as [|fuel IH]; intros low high; simpl.
  - destruct (high <? low); discriminate.
  - destruct (high <? low) eqn:Hcmp; [discriminate|].
    apply Z.ltb_ge in Hcmp.
    pose proof (midpoint_bounds low high Hcmp) as Hmid.
    destruct (leU _ _ && _).
    + intros [= <-]. lia.
    + destruct (gtU _ _); intros Hrec; apply IH in Hrec; lia.
Qed.

Lemma searchLine_range (lp : list Z) (pos mid : Z) :
  searchLine lp pos = Some mid -> 0 <= mid < Z.of_nat (length lp).
Proof.
  unfold searchLine.
  destruct (binarySearch _ _ _ _ _) as [hit|] eqn:Hsearch; [|discriminate].
  intros ->. apply binarySearch_range in Hsearch. lia.
Qed.

(** The fuel [searchLine] gives the loop is enough. *)
Lemma searchLine_fuel (lp : list Z) (pos : Z) :
  exists hit,
    binarySearch (length lp) lp pos 0 (Z.of_nat (length lp) - 1) = Some hit.
Proof. apply binarySearch_terminates. lia. Qed.

Lemma searchLine_nil (pos : Z) : searchLine [] pos = None.
Proof. reflexivity. Qed.

(** ** Lines *)

Lemma splitLines_nonempty (s : string) : splitLines s <> [].
Proof.
  destruct s as [|c s]; simpl; [discriminate|].
  destruct (Ascii.eqb c newline); [discriminate|].
  destruct (splitLines s); discriminate.
Qed.

Lemma linePositionsFrom_length (position : Z) (lines : list string) :
  length (linePositionsFrom position lines) = length lines.
Proof.
  revert position. induction lines as [|l lines IH]; intros position; simpl; [reflexivity|].
  now rewrite IH.
Qed.

Lemma at_in_range {A : Type} (a : list A) (i : Z) :
  0 <= i < Z.of_nat (length a) -> exists x, at_ a i = Some x.
Proof.
  intros Hi. unfold at_.
  destruct (i <? 0) eqn:Hneg; [apply Z.ltb_lt in Hneg; lia|].
  apply lookup_lt_is_Some. lia.
Qed.

(** The line [JSParser.findClasses] reads for a match exists: the index is
    a hit of the search over as many positions as there are lines, or 0. *)
Lemma js_class_line_defined (content : string) (entities : list CodeEntity) (pos : Z) :
  let linePositions :=
    if Z.of_nat (length entities) =? 0 then computeLinePositions content else [] in
  exists lineContent,
    at_ (splitLines content)
        (match searchLine linePositions pos with Some mid => mid | None => 0 end)
    = Some lineContent.
Proof.
  intros linePositions.
  pose proof (splitLines_nonempty content) as Hne.
  assert (Hlen : (0 < length (splitLines content))%nat)
    by (destruct (splitLines content); [congruence | simpl; lia]).
  destruct (searchLine linePositions pos) as [mid|] eqn:Hsearch.
  - apply searchLine_range in Hsearch.
    apply at_in_range. subst linePositions.
    destruct (Z.of_nat (length entities) =? 0).
    + unfold computeLinePositions in Hsearch.
      rewrite linePositionsFrom_length in Hsearch. lia.
    + simpl in Hsearch. lia.
  - apply at_in_range. lia.
Qed.

(** ** The table of line positions *)

Lemma at_nat {A : Type} (a : list A) (i : nat) : at_ a (Z.of_nat i) = a !! i.
Proof.
  unfold at_. destruct (Z.of_nat i <? 0) eqn:Hneg.
  - apply Z.ltb_lt in Hneg. lia.
  - now rewrite Nat2Z.id.
Qed.

Lemma splitLines_cons_length (c : ascii) (s : string) :
  length (splitLines (String c s))
  = if Ascii.eqb c newline then S (length (splitLines s)) else length (splitLines s).
Proof.
  simpl. destruct (Ascii.eqb c newline); [reflexivity|].
  pose proof (splitLines_nonempty s).
  destruct (splitLines s); [contradiction | reflexivity].
Qed.

Lemma linePositionsFrom_lower (lines : list string) (p : Z) (j : nat) (y : Z) :
  linePositionsFrom p lines !! j = Some y -> p <= y.
Proof.
  revert p j.
  induction lines as [|l lines IH]; intros p j; simpl; [now rewrite lookup_nil|].
  destruct j as [|j]; simpl.
  - intros [= <-]. lia.
  - intros Hj. apply IH in Hj. lia.
Qed.

Lemma linePositionsFrom_increasing (lines : list string) (p : Z) (i j : nat) (x y : Z) :
  linePositionsFrom p lines !! i = Some x ->
  linePositionsFrom p lines !! j = Some y ->
  (i < j)%nat -> x < y.
Proof.
  revert p i j.
  induction lines as [|l lines IH]; intros p i j; simpl; [now rewrite lookup_nil|].
  destruct i as [|i], j as [|j]; simpl; try lia.
  - intros [= <-] Hj _. apply linePositionsFrom_lower in Hj. lia.
  - intros Hi Hj Hlt. eapply (IH _ i j); [exact Hi | exact Hj | lia].
Qed.

(** The offset table locates a position: the line that holds offset [k] is
    the one whose start is the last not after [k]. *)
Lemma linePositionsFrom_locate (s : string) (p : Z) (k : nat) :
  (k <= String.length s)%nat ->
  let lp := linePositionsFrom p (splitLines s) in
  let i := pred (length (splitLines (take k s))) in
  exists x, lp !! i = Some x /\ x <= p + Z.of_nat k
            /\ (S i = length lp
                \/ exists y, lp !! S i = Some y /\ p + Z.of_nat k < y).
Proof.
  revert p k.
  induction s as [|c s IH]; intros p k Hk.
  - destruct k; simpl in *; [|lia].
    exists p. split; [reflexivity|]. split; [lia | now left].
  - destruct k as [|k].
    + cbn [take splitLines length pred].
      destruct (Ascii.eqb c newline).
      * pose proof (splitLines_nonempty s) as Hne.
        destruct (splitLines s) as [|l ls] eqn:Hs; [contradiction|].
        cbn. exists p. split; [reflexivity|]. split; [lia|]. right.
        eexists. split; [reflexivity | lia].
      * pose proof (splitLines_nonempty s) as Hne.
        destruct (splitLines s) as [|l [|l' ls]] eqn:Hs; [contradiction| |].
        -- cbn. exists p. split; [reflexivity|]. split; [lia | now left].
        -- cbn. exists p. split; [reflexivity|]. split; [lia|]. right.
           eexists. split; [reflexivity | lia].
    + cbn [take]. rewrite splitLines_cons_length.
      simpl in Hk. assert (Hk' : (k <= String.length s)%nat) by lia.
      pose proof (splitLines_nonempty (take k s)) as Hne.
      cbn [splitLines].
      destruct (Ascii.eqb c newline).
      * destruct (IH (p + 1) k Hk') as (x & Hx & Hle & Hnext).
        cbn [linePositionsFrom String.length Z.of_nat].
        replace (p + Z.of_nat 0 + 1) with (p + 1) by lia.
        destruct (splitLines (take k s)) as [|l0 ls0]; [contradiction|].
        cbn [length pred] in *.
        exists x. split; [exact Hx|]. split; [lia|].
        destruct Hnext as [Hlast | (y & Hy & Hlt)].
        -- left. cbn [length]. lia.
        -- right. exists y. split; [exact Hy | lia].
      * destruct (IH (p + 1) k Hk') as (x & Hx & Hle & Hnext).
        pose proof (splitLines_nonempty s) as Hne'.
        destruct (splitLines s) as [|l ls]; [contradiction|].
        cbn [linePositionsFrom] in *.
        replace (p + Z.of_nat (String.length (String c l)) + 1)
          with (p + 1 + Z.of_nat (String.length l) + 1) by (simpl String.length; lia).
        set (T := linePositionsFrom (p + 1 + Z.of_nat (String.length l) + 1) ls) in *.
        destruct (splitLines (take k s)) as [|l0 ls0]; [contradiction|].
        cbn [length pred] in *.
        destruct (length ls0) as [|i'].
        -- cbn in Hx. exists p. split; [reflexivity|]. split; [lia|].
           destruct Hnext as [Hlast | (y & Hy & Hlt)].
           ++ left. cbn [length] in *. lia.
           ++ right. exists y. split; [exact Hy | lia].
        -- exists x. split; [exact Hx|]. split; [lia|].
           destruct Hnext as [Hlast | (y & Hy & Hlt)].
           ++ left. cbn [length] in *. lia.
           ++ right. exists y. split; [exact Hy | lia].
Qed.

Lemma binarySearch_finds (fuel : nat) (lp : list Z) (pos : Z) (i : nat) (x : Z)
    (low high : Z) :
  (forall (a b : nat) (u v : Z),
      lp !! a = Some u -> lp !! b = Some v -> (a < b)%nat -> u < v) ->
  lp !! i = Some x -> x <= pos ->
  (S i = length lp \/ exists y, lp !! S i = Some y /\ pos < y) ->
  0 <= low <= Z.of_nat i -> Z.of_nat i <= high < Z.of_nat (length lp) ->
  high - low + 1 <= Z.of_nat fuel ->
  binarySearch fuel lp pos low high = Some (Some (Z.of_nat i)).
Proof.
  intros Hsorted Hi Hle Hnext.
  assert (Hmono : forall (a b : nat) (u v : Z),
             lp !! a = Some u -> lp !! b = Some v -> (a <= b)%nat -> u <= v).
  { intros a b u v Ha Hb Hab.
    destruct (decide (a = b)) as [->|Hne].
    - rewrite Ha in Hb. injection Hb as ->. lia.
    - assert (u < v) by (apply (Hsorted a b); [exact Ha | exact Hb | lia]). lia. }
  revert low high.
  induction fuel as [|fuel IH]; intros low high Hlow Hhigh Hfuel; cbn [binarySearch].
  - lia.
  - destruct (high <? low) eqn:Hcmp; [apply Z.ltb_lt in Hcmp; lia|].
    pose proof (midpoint_bounds low high ltac:(lia)) as Hmid.
    set (m := Z.to_nat ((low + high) / 2)).
    assert (Hm : (low + high) / 2 = Z.of_nat m) by (subst m; lia).
    cbn zeta. rewrite Hm.
    replace (Z.of_nat m + 1) with (Z.of_nat (S m)) by lia.
    rewrite !at_nat.
    destruct (lookup_lt_is_Some_2 lp m ltac:(lia)) as [v Hv]. rewrite Hv. cbn [leU gtU].
    destruct (lt_eq_lt_dec m i) as [[Hlt | ->] | Hgt].
    + (* the hit lies to the right *)
      destruct (lookup_lt_is_Some_2 lp (S m) ltac:(apply lookup_lt_Some in Hi; lia))
        as [w Hw].
      rewrite Hw. cbn [gtU].
      assert (v < x) by (apply (Hsorted m i); assumption).
      assert (w <= x) by (apply (Hmono (S m) i); [assumption.. | lia]).
      apply lookup_lt_Some in Hi.
      replace (v <=? pos) with true by (symmetry; apply Z.leb_le; lia).
      replace (Z.of_nat m =? Z.of_nat (length lp) - 1) with false
        by (symmetry; apply Z.eqb_neq; lia).
      replace (pos <? w) with false by (symmetry; apply Z.ltb_ge; lia).
      replace (pos <? v) with false by (symmetry; apply Z.ltb_ge; lia).
      cbn [andb orb]. apply IH; lia.
    + (* the hit *)
      rewrite Hi in Hv. injection Hv as <-.
      replace (x <=? pos) with true by (symmetry; apply Z.leb_le; lia).
      destruct Hnext as [Hlast | (y & Hy & Hlt)].
      * replace (Z.of_nat i =? Z.of_nat (length lp) - 1) with true
          by (symmetry; apply Z.eqb_eq; lia).
        reflexivity.
      * rewrite Hy. cbn [gtU].
        replace (pos <? y) with true by (symmetry; apply Z.ltb_lt; lia).
        now rewrite orb_true_r.
    + (* the hit lies to the left *)
      destruct Hnext as [Hlast | (y & Hy & Hlt)].
      { apply lookup_lt_Some in Hv. lia. }
      assert (y <= v) by (apply (Hmono (S i) m); [assumption.. | lia]).
      replace (v <=? pos) with false by (symmetry; apply Z.leb_gt; lia).
      replace (pos <? v) with true by (symmetry; apply Z.ltb_lt; lia).
      cbn [andb]. apply IH; lia.
Qed.

Lemma searchLine_computeLinePositions (content : string) (pos : Z) :
  0 <= pos <= Z.of_nat (String.length content) ->
  searchLine (computeLinePositions content) pos = Some (lineOfPrefix content pos - 1).
Proof.
  intros Hpos. unfold searchLine, computeLinePositions, lineOfPrefix.
  destruct (linePositionsFrom_locate content 0 (Z.to_nat pos) ltac:(lia))
    as (x & Hx & Hle & Hnext).
  pose proof (splitLines_nonempty (take (Z.to_nat pos) content)) as Hne.
  set (lp := linePositionsFrom 0 (splitLines content)) in *.
  set (i := pred (length (splitLines (take (Z.to_nat pos) content)))) in *.
  pose proof (lookup_lt_Some _ _ _ Hx) as Hlt.
  rewrite (binarySearch_finds (length lp) lp pos i x 0 (Z.of_nat (length lp) - 1)).
  - f_equal. subst i.
    destruct (splitLines (take (Z.to_nat pos) content)); [contradiction|].
    cbn [length pred]. lia.
  - intros a b u v. apply linePositionsFrom_increasing.
  - exact Hx.
  - lia.
  - destruct Hnext as [Hlast | (y & Hy & Hlty)]; [now left | right].
    exists y. split; [exact Hy | lia].
  - lia.
  - lia.
  - lia.
Qed.

(** ** The extraction loops *)

Section Loops.

Context `{NodePath}.

Lemma has_false (s : gset string) (x : string) : has s x = false <-> x ∉ s.
Proof. unfold has. apply bool_decide_eq_false. Qed.

Lemma has_true (s : gset string) (x : string) : has s x = true <-> x ∈ s.
Proof. unfold has. apply bool_decide_eq_true. Qed.

Lemma js_functionStep_fold (lp : list Z) (filePath rel : string)
    (matches : list Match) (entities : list CodeEntity) :
  exists added,
    fold_left (js_functionStep lp filePath rel) matches entities = entities ++ added
    /\ Forall isAllowedFunction added.
Proof.
  revert entities.
  induction matches as [|m matches IH]; intros entities; simpl.
  - exists []. split; [now rewrite app_nil_r | constructor].
  - unfold js_functionStep at 2.
    destruct (has reservedWords (group1 m)) eqn:Hres.
    + apply IH.
    + destruct (IH (entities ++
        [ {| name := group1 m;
             line := match searchLine lp (index m) with
                     | Some mid => mid + 1
                     | None => 1
                     end;
             file := path_basename filePath;
             relativePath := rel;
             type := function |} ])) as (added & -> & Hall).
      eexists (_ :: added). split.
      * now rewrite <- app_assoc.
      * constructor; [|exact Hall].
        split; [reflexivity|]. simpl. now apply has_false.
Qed.

Lemma js_findFunctions_spec (content filePath rel : string)
    (entities : list CodeEntity) :
  exists added,
    js_findFunctions content filePath rel entities = entities ++ added
    /\ Forall isAllowedFunction added.
Proof.
  unfold js_findFunctions.
  generalize js_functionPatterns as patterns.
  intros patterns. revert entities.
  induction patterns as [|pattern patterns IH]; intros entities; simpl.
  - exists []. split; [now rewrite app_nil_r | constructor].
  - destruct (js_functionStep_fold (computeLinePositions content) filePath rel
                (execAll pattern content) entities) as (added1 & -> & Hall1).
    destruct (IH (entities ++ added1)) as (added2 & -> & Hall2).
    exists (added1 ++ added2). split.
    + now rewrite app_assoc.
    + now apply Forall_app.
Qed.

Lemma js_classLoop_spec (lp : list Z) (lines : list string)
    (filePath rel : string) (matches : list Match)
    (found : gset string) (entities : list CodeEntity) :
  (forall pos, exists lineContent,
      at_ lines (match searchLine lp pos with Some mid => mid | None => 0 end)
      = Some lineContent) ->
  exists added,
    js_classLoop lp lines filePath rel matches found entities
    = Return (entities ++ added)
    /\ Forall isClass added.
Proof.
  intros Hdefined. revert found entities.
  induction matches as [|m matches IH]; intros found entities; simpl.
  - exists []. split; [now rewrite app_nil_r | constructor].
  - destruct (has found _); [apply IH|].
    destruct (Hdefined (index m)) as [lineContent ->].
    destruct (js_rejectLine lineContent); [apply IH|].
    match goal with
    | |- context [js_classLoop _ _ _ _ _ ?found' (entities ++ [?e])] =>
        destruct (IH found' (entities ++ [e])) as (added & -> & Hall);
        exists (e :: added)
    end.
    split; [now rewrite <- app_assoc|].
    constructor; [reflexivity | exact Hall].
Qed.

Lemma js_findClasses_spec (content filePath rel : string)
    (entities : list CodeEntity) :
  exists added,
    js_findClasses content filePath rel entities = Return (entities ++ added)
    /\ Forall isClass added.
Proof.
  unfold js_findClasses. apply js_classLoop_spec.
  intros pos. apply js_class_line_defined.
Qed.

Lemma prefixFunctionStep_fold (content filePath rel : string)
    (matches : list Match) (entities : list CodeEntity) :
  exists added,
    fold_left (prefixFunctionStep content filePath rel) matches entities
    = entities ++ added
    /\ Forall (fun e => type e = function) added.
Proof.
  revert entities.
  induction matches as [|m matches IH]; intros entities; simpl.
  - exists []. split; [now rewrite app_nil_r | constructor].
  - unfold prefixFunctionStep at 2.
    match goal with
    | |- context [fold_left _ _ (entities ++ [?e])] =>
        destruct (IH (entities ++ [e])) as (added & -> & Hall);
        exists (e :: added)
    end.
    split; [now rewrite <- app_assoc|].
    constructor; [reflexivity | exact Hall].
Qed.

Lemma py_classLoop_spec (content : string) (lines : list string)
    (filePath rel : string) (matches : list Match)
    (found : gset string) (entities : list CodeEntity) :
  exists added,
    py_classLoop content lines filePath rel matches found entities
    = Return (entities ++ added)
    /\ Forall isClass added.
Proof.
  revert found entities.
  induction matches as [|m matches IH]; intros found entities; simpl.
  - exists []. split; [now rewrite app_nil_r | constructor].
  - destruct (has found _); [apply IH|].
    set (lineNumber := lineOfPrefix content (index m)).
    assert (Hline : exists lineContent,
      (if (0 <? lineNumber) && (lineNumber <=? Z.of_nat (length lines)) then
         match at_ lines (lineNumber - 1) with
         | Some l => Return l
         | None => Throw (TypeError "Cannot read properties of undefined (reading 'trim')")
         end
       else Return EmptyString) = Return lineContent).
    { destruct ((0 <? lineNumber) && (lineNumber <=? Z.of_nat (length lines))) eqn:Hguard;
        [|eauto].
      apply andb_true_iff in Hguard as [Hpos Hle].
      apply Z.ltb_lt in Hpos. apply Z.leb_le in Hle.
      destruct (at_in_range lines (lineNumber - 1)) as [l ->]; [lia | eauto]. }
    destruct Hline as [lineContent ->]. simpl.
    destruct (py_rejectLine lineContent); [apply IH|].
    match goal with
    | |- context [py_classLoop _ _ _ _ _ ?found' (entities ++ [?e])] =>
        destruct (IH found' (entities ++ [e])) as (added & -> & Hall);
        exists (e :: added)
    end.
    split; [now rewrite <- app_assoc|].
    constructor; [reflexivity | exact Hall].
Qed.

(** No parser throws: the [TypeError] on an undefined line is never
    reached. *)
Lemma parseFile_returns (env : Env) (parser : Parser) (filePath basePath : string) :
  exists entities, parseFile env parser filePath basePath = Return entities.
Proof.
  destruct parser; simpl.
  - unfold js_parseFile.
    destruct (js_findClasses_spec (readFileContent env filePath) filePath
                (relativeTo basePath filePath)
                (js_findFunctions (readFileContent env filePath) filePath
                   (relativeTo basePath filePath) [])) as (added & -> & _).
    eauto.
  - unfold py_parseFile, py_findClasses.
    destruct (py_classLoop_spec (readFileContent env filePath)
                (splitLines (readFileContent env filePath)) filePath
                (relativeTo basePath filePath)
                (execAll py_classPattern (readFileContent env filePath)) ∅
                (py_findFunctions (readFileContent env filePath) filePath
                   (relativeTo basePath filePath) [])) as (added & -> & _).
    eauto.
  - unfold go_parseFile. eauto.
Qed.

(** A file that cannot be read is parsed as the empty text, in which no
    pattern matches. *)
Lemma readFileContent_unreadable (env : Env) (filePath : string) (e : JsError) :
  readFileSync (fs env) filePath = Throw e -> readFileContent env filePath = EmptyString.
Proof. unfold readFileContent. now intros ->. Qed.

Lemma parseFile_unreadable (env : Env) (parser : Parser)
    (filePath basePath : string) (e : JsError) :
  readFileSync (fs env) filePath = Throw e ->
  parseFile env parser filePath basePath = Return [].
Proof.
  intros Hread. apply readFileContent_unreadable in Hread.
  destruct parser; simpl.
  - unfold js_parseFile. rewrite Hread. reflexivity.
  - unfold py_parseFile. rewrite Hread. reflexivity.
  - unfold go_parseFile. rewrite Hread. reflexivity.
Qed.

Lemma js_functionStep_fold_origin (lp : list Z) (filePath rel : string)
    (matches : list Match) (entities : list CodeEntity) (e : CodeEntity) :
  In e (fold_left (js_functionStep lp filePath rel) matches entities) ->
  In e entities
  \/ exists m, In m matches /\ name e = group1 m /\ type e = function
               /\ line e = match searchLine lp (index m) with
                           | Some mid => mid + 1
                           | None => 1
                           end.
Proof.
  revert entities.
  induction matches as [|m matches IH]; intros entities; simpl; [auto|].
  intros Hin. apply IH in Hin as [Hin | (m' & Hm' & Hrest)].
  - unfold js_functionStep in Hin.
    destruct (has reservedWords (group1 m)); [auto|].
    apply in_app_or in Hin as [Hin | [<- | []]]; [auto|].
    right. exists m. simpl. auto.
  - right. exists m'. auto.
Qed.

(** Every function record of [JSParser] stems from a match of one of the
    three patterns, and carries the 1-based line of the first code unit of
    that match. *)
Lemma js_function_record_lines (content filePath rel : string) (e : CodeEntity) :
  In e (js_findFunctions content filePath rel []) ->
  type e = function
  /\ exists pattern m,
       In pattern js_functionPatterns /\ In m (execAll pattern content)
       /\ name e = group1 m
       /\ line e = lineOfPrefix content (index m).
Proof.
  unfold js_findFunctions.
  assert (Hgen : forall patterns entities,
    In e (fold_left
            (fun entities pattern =>
               fold_left (js_functionStep (computeLinePositions content) filePath rel)
                 (execAll pattern content) entities)
            patterns entities) ->
    In e entities
    \/ (type e = function
        /\ exists pattern m,
             In pattern patterns /\ In m (execAll pattern content)
             /\ name e = group1 m
             /\ line e = lineOfPrefix content (index m))).
  { induction patterns as [|pattern patterns IH]; intros entities; simpl; [auto|].
    intros Hin. apply IH in Hin as [Hin | (Htype & pattern' & m & Hp & Hrest)].
    - apply js_functionStep_fold_origin in Hin
        as [Hin | (m & Hm & Hname & Htype & Hline)]; [auto|].
      right. split; [exact Htype|]. exists pattern, m.
      repeat split; auto.
      rewrite Hline, searchLine_computeLinePositions; [lia|].
      apply execAll_matches in Hm. lia.
    - right. split; [exact Htype|]. exists pattern', m. auto. }
  intros Hin. apply Hgen in Hin as [[] | Hfound]. exact Hfound.
Qed.

Lemma js_classLoop_unique (lp : list Z) (lines : list string)
    (filePath rel : string) (matches : list Match)
    (found : gset string) (entities result : list CodeEntity) :
  js_classLoop lp lines filePath rel matches found entities = Return result ->
  exists added,
    result = entities ++ added
    /\ NoDup (List.map name added)
    /\ Forall (fun e => name e +:+ ":" +:+ filePath ∉ found) added.
Proof.
  revert found entities.
  induction matches as [|m matches IH]; intros found entities; simpl.
  - intros [= <-]. exists []. split; [now rewrite app_nil_r|].
    split; constructor.
  - destruct (has found _) eqn:Hfound; [apply IH|].
    destruct (at_ lines _) as [lineContent|]; [|discriminate].
    destruct (js_rejectLine lineContent); [apply IH|].
    intros Hloop. apply IH in Hloop as (added & -> & Hnodup & Hkeys).
    eexists (_ :: added). split; [now rewrite <- app_assoc|].
    rewrite Forall_forall in Hkeys.
    split.
    + simpl. constructor; [|exact Hnodup].
      intros Hin. apply list_elem_of_In, in_map_iff in Hin as (e & Hname & Hin).
      apply (Hkeys e); [now apply list_elem_of_In|].
      rewrite Hname. set_solver.
    + constructor.
      * simpl. now apply has_false.
      * apply Forall_forall. intros e He. specialize (Hkeys e He). set_solver.
Qed.

(** The class records of one [JSParser] run bear pairwise distinct
    names. *)
Lemma js_class_names_unique (env : Env) (filePath basePath : string)
    (entities : list CodeEntity) :
  js_parseFile env filePath basePath = Return entities ->
  NoDup (List.map name (List.filter (fun e => EntityType_eqb (type e) class) entities)).
Proof.
  unfold js_parseFile, js_findClasses. intros Hparse.
  apply js_classLoop_unique in Hparse as (added & -> & Hnodup & _).
  destruct (js_findFunctions_spec (readFileContent env filePath) filePath
              (relativeTo basePath filePath) []) as (functions & -> & Hfunctions).
  simpl. rewrite List.filter_app.
  assert (Hnone : List.filter (fun e => EntityType_eqb (type e) class) functions = []).
  { clear -Hfunctions. induction Hfunctions as [|e l [Htype _] _ IH]; [reflexivity|].
    simpl. rewrite Htype. exact IH. }
  rewrite Hnone. simpl.
  clear -Hnodup. induction added as [|e added IH]; simpl; [constructor|].
  inversion Hnodup as [|x l Hnotin Hrest]; subst.
  destruct (EntityType_eqb (type e) class); [|now apply IH].
  simpl. constructor; [|now apply IH].
  intros Hin. apply Hnotin.
  apply list_elem_of_In, in_map_iff in Hin as (e' & Hname & Hin).
  apply filter_In in Hin as [Hin _].
  apply list_elem_of_In, in_map_iff. eauto.
Qed.

End Loops.

(** ** The scan *)

Section Scan.

Context `{NodePath}.

Lemma getFilesInDirectory_returns (env : Env) (dirPath : string) (maxDepth : Z) :
  exists files, getFilesInDirectory env dirPath maxDepth = Return files.
Proof.
  unfold getFilesInDirectory.
  destruct (glob env _ _); simpl; eauto.
Qed.

(** The argument [maxDepth] plays no part in the traversal. *)
Lemma getFilesInDirectory_any_depth (env : Env) (dirPath : string) (d1 d2 : Z) :
  getFilesInDirectory env dirPath d1 = getFilesInDirectory env dirPath d2.
Proof. reflexivity. Qed.

Lemma forFiles_returns (env : Env) (keep : EntityType) (base : string)
    (files : list string) (all : list CodeEntity) :
  exists recs, forFiles env keep base files all = Return (all ++ recs).
Proof.
  revert all.
  induction files as [|file files IH]; intros all; simpl.
  - exists []. now rewrite app_nil_r.
  - destruct (getParserForFile file) as [parser|]; [|apply IH].
    destruct (parseFile_returns env parser file base) as [entities ->]. simpl.
    destruct (IH (all ++ List.filter (fun entity => EntityType_eqb (type entity) keep)
                    entities)) as [recs ->].
    eexists. now rewrite <- app_assoc.
Qed.

(** The loop over the files gives the same records when the files that
    cannot be read are left out. *)
Lemma forFiles_skip_unreadable (env : Env) (keep : EntityType) (base : string)
    (files : list string) (all : list CodeEntity) :
  forFiles env keep base files all
  = forFiles env keep base (List.filter (canRead env) files) all.
Proof.
  revert all.
  induction files as [|file files IH]; intros all; simpl; [reflexivity|].
  unfold canRead at 1.
  destruct (readFileSync (fs env) file) as [text|e] eqn:Hread; simpl.
  - destruct (getParserForFile file) as [parser|]; [|apply IH].
    destruct (parseFile env parser file base); simpl; [apply IH | reflexivity].
  - destruct (getParserForFile file) as [parser|]; [|apply IH].
    rewrite (parseFile_unreadable env parser file base e Hread). simpl.
    rewrite app_nil_r. apply IH.
Qed.

Lemma analyze_eq (env : Env) (keep : EntityType) (dirPath : string)
    (maxDepth : Z) (files : list string) :
  getFilesInDirectory env (path_resolve dirPath) maxDepth = Return files ->
  analyze env keep dirPath maxDepth
  = forFiles env keep (path_resolve dirPath) files [].
Proof.
  intros Hfiles. unfold analyze. rewrite Hfiles. simpl.
  destruct (forFiles_returns env keep (path_resolve dirPath) files []) as [recs ->].
  reflexivity.
Qed.

Lemma analyze_returns (env : Env) (keep : EntityType) (dirPath : string)
    (maxDepth : Z) :
  exists recs, analyze env keep dirPath maxDepth = Return recs.
Proof.
  destruct (getFilesInDirectory_returns env (path_resolve dirPath) maxDepth)
    as [files Hfiles].
  rewrite (analyze_eq env keep dirPath maxDepth files Hfiles).
  destruct (forFiles_returns env keep (path_resolve dirPath) files []) as [recs ->].
  eauto.
Qed.

Lemma getFilesInDirectory_unsettled (env : Env) (dirPath : string) (maxDepth : Z) :
  match glob env (searchPatterns dirPath)
          {| nodir := true; ignore := ignorePatterns env dirPath |} with
  | GlobFound files => getFilesInDirectory env dirPath maxDepth = Return files
  | _ => getFilesInDirectory env dirPath maxDepth = Return []
  end.
Proof.
  unfold getFilesInDirectory.
  destruct (glob env _ _); reflexivity.
Qed.

(** C10. For every environment, directory path and depth argument,
    [getFunctions] and [getClasses] return a list and never throw; when
    the traversal fails or runs into its timeout, the list is empty. *)
Theorem analyzers_always_return (env : Env) (dirPath : string) (maxDepth : Z) :
  (exists functions, getFunctions env dirPath maxDepth = Return functions)
  /\ (exists classes, getClasses env dirPath maxDepth = Return classes)
  /\ match glob env (searchPatterns (path_resolve dirPath))
             {| nodir := true; ignore := ignorePatterns env (path_resolve dirPath) |} with
     | GlobFound _ => True
     | GlobFailed _ | GlobPending =>
         getFunctions env dirPath maxDepth = Return []
         /\ getClasses env dirPath maxDepth = Return []
     end.
Proof.
  split; [apply analyze_returns|].
  split; [apply analyze_returns|].
  pose proof (getFilesInDirectory_unsettled env (path_resolve dirPath) maxDepth) as Hfiles.
  destruct (glob env _ _); [exact I| |];
    (split; unfold getFunctions, getClasses;
     rewrite (analyze_eq env _ dirPath maxDepth [] Hfiles); reflexivity).
Qed.

(** C2, as the code has it. If the traversal has not finished when its
    timer fires, the collector catches the timeout and returns the empty
    file list, and [getFunctions] and [getClasses] return the empty list
    as an ordinary result; no failure reaches the caller. *)
Theorem traversal_timeout_yields_empty_result (env : Env) (dirPath : string)
    (maxDepth : Z) :
  glob env (searchPatterns (path_resolve dirPath))
    {| nodir := true; ignore := ignorePatterns env (path_resolve dirPath) |}
  = GlobPending ->
  getFilesInDirectory env (path_resolve dirPath) maxDepth = Return []
  /\ getFunctions env dirPath maxDepth = Return []
  /\ getClasses env dirPath maxDepth = Return [].
Proof.
  intros Hpending.
  pose proof (getFilesInDirectory_unsettled env (path_resolve dirPath) maxDepth) as Hfiles.
  rewrite Hpending in Hfiles.
  split; [exact Hfiles|].
  split; unfold getFunctions, getClasses;
    rewrite (analyze_eq env _ dirPath maxDepth [] Hfiles); reflexivity.
Qed.

End Scan.

(** ** The ignore rules *)

Lemma startsWith_unit (s : string) (c : ascii) :
  startsWith s (String c EmptyString) = true <-> exists rest, s = String c rest.
Proof.
  unfold startsWith. destruct s as [|b s]; simpl.
  - split; [discriminate | intros [rest Heq]; discriminate].
  - destruct (ascii_dec c b) as [->|Hne].
    + split; [eauto | intros _; now destruct s].
    + split; [discriminate | intros [rest [= Heq _]]; congruence].
Qed.

Lemma endsWith_suffix (s p : string) :
  endsWith s p = true <-> exists q, s = q +:+ p.
Proof.
  induction s as [|c s IH]; cbn [endsWith].
  - destruct (String.eqb_spec EmptyString p) as [<- | Hne]; simpl; split.
    + intros _. now exists EmptyString.
    + reflexivity.
    + discriminate.
    + intros [q Heq]. destruct q; simpl in Heq; [contradiction | discriminate].
  - destruct (String.eqb_spec (String c s) p) as [<- | Hne]; simpl; split.
    + intros _. now exists EmptyString.
    + reflexivity.
    + intros Hend. apply IH in Hend as [q ->]. now exists (String c q).
    + intros [q Heq]. apply IH.
      destruct q as [|c' q]; simpl in Heq; [contradiction|].
      injection Heq as _ ->. eauto.
Qed.

Lemma stripLeadingSlash_code (pattern : string) :
  stripLeadingSlash pattern
    (if startsWith pattern "/" then substring1 pattern else pattern).
Proof.
  destruct (startsWith pattern "/") eqn:Hstart.
  - apply startsWith_unit in Hstart as [rest ->]. constructor.
  - constructor. intros rest ->.
    assert (startsWith (String "/" rest) "/" = true) by (apply startsWith_unit; eauto).
    congruence.
Qed.

Lemma directoryScoped_code (pattern : string) :
  directoryScoped pattern
    (if endsWith pattern "/" then pattern +:+ "**" else pattern).
Proof.
  destruct (endsWith pattern "/") eqn:Hend.
  - apply endsWith_suffix in Hend as [dir ->]. constructor.
  - constructor. intros dir ->.
    assert (endsWith (dir +:+ "/") "/" = true) by (apply endsWith_suffix; eauto).
    congruence.
Qed.

Lemma rootQualified_code (root pattern : string) :
  exists rule,
    rootQualified root pattern rule
    /\ (if startsWith pattern "!" then "!" +:+ root +:+ "/" +:+ substring1 pattern
        else root +:+ "/" +:+ pattern) = ruleText rule.
Proof.
  destruct (startsWith pattern "!") eqn:Hstart.
  - apply startsWith_unit in Hstart as [rest ->].
    exists (Reinclude (root +:+ "/" +:+ rest)). split; [constructor | reflexivity].
  - exists (Exclude (root +:+ "/" +:+ pattern)). split; [|reflexivity].
    constructor. intros rest ->.
    assert (startsWith (String "!" rest) "!" = true) by (apply startsWith_unit; eauto).
    congruence.
Qed.

Lemma commonIgnores_defaults (root : string) :
  commonIgnores root = defaultExclusions root.
Proof. reflexivity. Qed.

Section Ignore.

Context `{NodePath}.

(** C6. The translator maps the patterns one by one and in order, each
    through the steps of the specification taken in sequence: a single
    leading slash is stripped, a result ending in a slash gets the
    recursive wildcard, a result starting with a bang becomes a negation
    under the root and any other an exclusion under the root; the list
    handed to the traversal is this translation followed by the fixed
    default exclusions. *)
Theorem gitignore_patterns_are_translated_in_order (env : Env)
    (patterns : list string) (basePath : string) :
  (exists rules,
     Forall2 (translates (replaceBackslashes basePath)) patterns rules
     /\ convertGitignorePatternsToGlob patterns basePath = List.map ruleText rules)
  /\ ignorePatterns env basePath
     = convertGitignorePatternsToGlob (readGitignore env basePath)
         (replaceBackslashes basePath)
       ++ defaultExclusions (replaceBackslashes basePath).
Proof.
  split; [|reflexivity].
  unfold convertGitignorePatternsToGlob.
  induction patterns as [|pattern patterns (rules & Hall & Heq)].
  - exists []. split; [constructor | reflexivity].
  - set (stripped := if startsWith pattern "/" then substring1 pattern else pattern).
    set (scoped := if endsWith stripped "/" then stripped +:+ "**" else stripped).
    destruct (rootQualified_code (replaceBackslashes basePath) scoped)
      as (rule & Hrule & Htext).
    exists (rule :: rules). split.
    + constructor; [|exact Hall].
      apply (translates_steps _ _ _ stripped scoped);
        [apply stripLeadingSlash_code | apply directoryScoped_code | exact Hrule].
    + simpl. f_equal; [exact Htext | exact Heq].
Qed.


End Ignore.

(** ** The script-family extractor *)

Lemma reservedWords_listed (x : string) :
  In x ["if"; "for"; "while"; "switch"; "catch"] -> x ∈ reservedWords.
Proof.
  unfold reservedWords. simpl.
  intros [<- | [<- | [<- | [<- | [<- | []]]]]]; set_solver.
Qed.

Section Script.

Context `{NodePath}.

(** C9. For every file text, [JSParser] returns a list in which no
    record of type function is named if, for, while, switch or catch. *)
Theorem reserved_words_are_never_functions (env : Env) (filePath basePath : string) :
  exists entities,
    js_parseFile env filePath basePath = Return entities
    /\ forall e, In e entities -> type e = function ->
         ~ In (name e) ["if"; "for"; "while"; "switch"; "catch"].
Proof.
  unfold js_parseFile.
  destruct (js_findFunctions_spec (readFileContent env filePath) filePath
              (relativeTo basePath filePath) []) as (functions & -> & Hfunctions).
  destruct (js_findClasses_spec (readFileContent env filePath) filePath
              (relativeTo basePath filePath) ([] ++ functions))
    as (classes & -> & Hclasses).
  eexists. split; [reflexivity|].
  intros e Hin Htype Hreserved. simpl in Hin.
  apply in_app_or in Hin as [Hin | Hin].
  - rewrite Forall_forall in Hfunctions.
    destruct (Hfunctions e) as [_ Hallowed]; [now apply list_elem_of_In|].
    apply Hallowed. now apply reservedWords_listed.
  - rewrite Forall_forall in Hclasses.
    assert (Hclass : isClass e) by (apply Hclasses; now apply list_elem_of_In).
    unfold isClass in Hclass. congruence.
Qed.

End Script.

(** ** The code on concrete trees *)

(** The translation of some ignore patterns under the root [/project]. *)
Lemma translation_examples :
  convertGitignorePatternsToGlob
    ["/build/"; "logs/"; "!logs/keep.py"; "*.log"; "/!x"] "/project"
  = ["/project/build/**"; "/project/logs/**"; "!/project/logs/keep.py";
     "/project/*.log"; "!/project/x"].
Proof. reflexivity. Qed.

(** The third function pattern does match [if (x) {] with the name [if];
    the record is dropped by the test on the reserved words. *)
Lemma reserved_candidate_is_dropped :
  List.map group1 (execAll (List.last js_functionPatterns Eps) "if (x) { f(); }") = ["if"]
  /\ js_parseFile (treeEnv [("/project/a.js", "if (x) { f(); }")]) "/project/a.js" "/project"
     = Return [].
Proof. split; vm_compute; reflexivity. Qed.

(** Without a function above it, the comment line is the line read for
    the match, and the class is rejected. *)
Lemma lone_commented_class_is_rejected :
  js_parseFile (treeEnv [("/project/a.js", "// class Foo")]) "/project/a.js" "/project"
  = Return [].
Proof. vm_compute. reflexivity. Qed.

(** C1. A file with [function calculateTotal] on line 4 and
    [class ShoppingCart] on line 13: the function records carry line 4, the
    class record carries line 1, since [findClasses] finds the entity list
    non-empty and searches an empty table of line positions.  On the sample
    file of the tests the line read for every class match is the comment of
    line 1, and no class is reported at all.  In a file without functions
    the table is filled, but a class at the start of line 2 is still
    reported on line 1: the match begins at the line break before it. *)
Theorem class_record_line_is_not_the_declaration_line :
  at_ (splitLines cart_js) 3 = Some "function calculateTotal(items) {"
  /\ at_ (splitLines cart_js) 12 = Some "class ShoppingCart {"
  /\ at_ (splitLines plain_js) 1 = Some "class Foo {}"
  /\ js_parseFile (treeEnv [("/project/plain.js", plain_js)]) "/project/plain.js" "/project"
     = Return
         [ {| name := "Foo"; line := 1; file := "plain.js";
              relativePath := "plain.js"; type := class |} ]
  /\ js_parseFile (treeEnv [("/project/cart.js", cart_js)]) "/project/cart.js" "/project"
     = Return
         [ {| name := "calculateTotal"; line := 4; file := "cart.js";
              relativePath := "cart.js"; type := function |};
           {| name := "calculateTotal"; line := 4; file := "cart.js";
              relativePath := "cart.js"; type := function |};
           {| name := "ShoppingCart"; line := 1; file := "cart.js";
              relativePath := "cart.js"; type := class |} ]
  /\ getClasses (treeEnv [("/project/sample.js", sample_js)]) "/project" 3 = Return [].
Proof. repeat split; vm_compute; reflexivity. Qed.

(** C2, as stated, fails: with a traversal that is still pending when the
    timer fires, the scan returns the empty list and throws nothing. *)
Lemma traversal_timeout_is_not_surfaced :
  glob (slowEnv [("/project/a.js", nested_js)])
    (searchPatterns (path_resolve "/project"))
    {| nodir := true;
       ignore := ignorePatterns (slowEnv [("/project/a.js", nested_js)])
                   (path_resolve "/project") |}
  = GlobPending
  /\ getFunctions (slowEnv [("/project/a.js", nested_js)]) "/project" 3 = Return []
  /\ getClasses (slowEnv [("/project/a.js", nested_js)]) "/project" 3 = Return []
  /\ ~ (exists e, getFunctions (slowEnv [("/project/a.js", nested_js)]) "/project" 3
                  = Throw e).
Proof.
  split; [reflexivity|].
  split; [reflexivity|].
  split; [reflexivity|].
  intros [e Hthrow]. vm_compute in Hthrow. discriminate.
Qed.

(** The amended C2 on a tree whose traversal is still pending. *)
Lemma traversal_timeout_yields_empty_result_witness :
  glob (slowEnv [("/project/a.js", nested_js)])
    (searchPatterns (path_resolve "/project"))
    {| nodir := true;
       ignore := ignorePatterns (slowEnv [("/project/a.js", nested_js)])
                   (path_resolve "/project") |}
  = GlobPending
  /\ (getFilesInDirectory (slowEnv [("/project/a.js", nested_js)])
        (path_resolve "/project") 3 = Return []
      /\ getFunctions (slowEnv [("/project/a.js", nested_js)]) "/project" 3 = Return []
      /\ getClasses (slowEnv [("/project/a.js", nested_js)]) "/project" 3 = Return []).
Proof.
  split; [reflexivity|].
  apply (traversal_timeout_yields_empty_result
           (slowEnv [("/project/a.js", nested_js)]) "/project" 3).
  reflexivity.
Defined.

(** C3. The depth argument never reaches the traversal: the collector
    returns the same list for any two depths, and with depth 1 a file two
    directories below the root is collected and scanned. *)
Theorem depth_bound_is_not_applied :
  (forall (paths : NodePath) (env : Env) (dirPath : string) (d1 d2 : Z),
      @getFilesInDirectory paths env dirPath d1
      = @getFilesInDirectory paths env dirPath d2)
  /\ getFilesInDirectory (treeEnv [("/project/a/b/deep.js", nested_js)]) "/project" 1
     = Return ["/project/a/b/deep.js"]
  /\ getFunctions (treeEnv [("/project/a/b/deep.js", nested_js)]) "/project" 1
     = getFunctions (treeEnv [("/project/a/b/deep.js", nested_js)]) "/project" 3
  /\ exists records,
       getFunctions (treeEnv [("/project/a/b/deep.js", nested_js)]) "/project" 1
       = Return records
       /\ In "deep" (List.map name records).
Proof.
  split; [intros; apply getFilesInDirectory_any_depth|].
  split; [vm_compute; reflexivity|].
  split; [reflexivity|].
  eexists. split; [vm_compute; reflexivity|].
  simpl. auto.
Qed.

(** C4. One function declaration is matched by the first and by the third
    pattern of [findFunctions], which keeps no set of names found: the scan
    returns two records with the same name, type and relative path. *)
Theorem function_records_are_duplicated :
  getFunctions (treeEnv [("/project/deep.js", nested_js)]) "/project" 3
  = Return
      [ {| name := "deep"; line := 1; file := "deep.js";
           relativePath := "deep.js"; type := function |};
        {| name := "deep"; line := 1; file := "deep.js";
           relativePath := "deep.js"; type := function |} ]
  /\ ~ NoDup
         (List.map triple
            [ {| name := "deep"; line := 1; file := "deep.js";
                 relativePath := "deep.js"; type := function |};
              {| name := "deep"; line := 1; file := "deep.js";
                 relativePath := "deep.js"; type := function |} ]).
Proof.
  split; [vm_compute; reflexivity|].
  simpl. intros Hnodup.
  inversion Hnodup as [|x l Hnotin _]; subst.
  apply Hnotin. constructor.
Qed.

(** C5. A comment line [// class Foo] below a function yields a class
    record Foo, because the line read for the match is line 1; a string
    literal with a blank before [class] yields a class record Bar. *)
Theorem commented_and_quoted_classes_are_reported :
  at_ (splitLines commented_js) 1 = Some "// class Foo"
  /\ getClasses (treeEnv [("/project/c.js", commented_js)]) "/project" 3
     = Return
         [ {| name := "Foo"; line := 1; file := "c.js";
              relativePath := "c.js"; type := class |} ]
  /\ getClasses (treeEnv [("/project/q.js", quoted_js)]) "/project" 3
     = Return
         [ {| name := "Bar"; line := 1; file := "q.js";
              relativePath := "q.js"; type := class |} ].
Proof. repeat split; vm_compute; reflexivity. Qed.


(** * Further properties of the code *)

(** ** What a match consumes and captures *)

Lemma append_cons (c : ascii) (a b : string) :
  String c a +:+ b = String c (a +:+ b).
Proof. reflexivity. Qed.

Lemma append_empty_l (b : string) : EmptyString +:+ b = b.
Proof. reflexivity. Qed.

Lemma take_app_length (w s : string) : take (String.length w) (w +:+ s) = w.
Proof.
  induction w as [|c w IH]; [now destruct s|].
  rewrite append_cons. simpl. now rewrite IH.
Qed.

Lemma length_append (w s : string) :
  String.length (w +:+ s) = (String.length w + String.length s)%nat.
Proof.
  induction w as [|c w IH]; [reflexivity|].
  rewrite append_cons. simpl. now rewrite IH.
Qed.

Lemma append_assoc (a b c : string) : (a +:+ b) +:+ c = a +:+ (b +:+ c).
Proof.
  induction a as [|x a IH]; [reflexivity|].
  rewrite !append_cons. now rewrite IH.
Qed.

Lemma append_empty_r (a : string) : a +:+ EmptyString = a.
Proof.
  induction a as [|x a IH]; [reflexivity|].
  rewrite append_cons. now rewrite IH.
Qed.

Lemma allUnits_append (q : ascii -> bool) (a b : string) :
  allUnits q (a +:+ b) = allUnits q a && allUnits q b.
Proof.
  induction a as [|x a IH]; [reflexivity|].
  rewrite append_cons. simpl. now rewrite IH, andb_assoc.
Qed.

Lemma allUnits_weaken (p q : ascii -> bool) (s : string) :
  (forall c, p c = true -> q c = true) -> allUnits p s = true -> allUnits q s = true.
Proof.
  intros Hpq. induction s as [|c s IH]; simpl; [reflexivity|].
  rewrite !andb_true_iff. intros [Hc Hs]. auto.
Qed.

Lemma litMatch_trace (lit : string) (k : Cont) (prev : option ascii)
    (rest : string) (cap : option string) (res : MatchState) :
  litMatch lit k prev rest cap = Some res ->
  exists st, k st = Some res /\ rest = lit +:+ ms_rest st /\ ms_cap st = cap.
Proof.
  revert prev rest.
  induction lit as [|a lit IH]; intros prev rest; simpl.
  - intros Hk. eexists. split; [exact Hk | split; reflexivity].
  - destruct rest as [|c rest]; [discriminate|].
    destruct (Ascii.eqb_spec a c) as [->|]; [|discriminate].
    intros Hrec. apply IH in Hrec as (st & Hk & -> & Hcap).
    exists st. auto.
Qed.

Lemma starGreedy_trace (p : ascii -> bool) (k : Cont) (prev : option ascii)
    (rest : string) (cap : option string) (res : MatchState) :
  starGreedy p k prev rest cap = Some res ->
  exists st w, k st = Some res /\ rest = w +:+ ms_rest st /\ ms_cap st = cap
               /\ allUnits p w = true.
Proof.
  revert prev.
  induction rest as [|c rest IH]; intros prev; simpl.
  - intros Hk. exists (mkState prev EmptyString cap), EmptyString. auto.
  - destruct (p c) eqn:Hpc.
    + destruct (starGreedy p k (Some c) rest cap) as [r|] eqn:Hrec.
      * intros [= <-]. apply IH in Hrec as (st & w & Hk & -> & Hcap & Hall).
        exists st, (String c w). simpl. rewrite Hpc, Hall. auto.
      * intros Hk. exists (mkState prev (String c rest) cap), EmptyString. auto.
    + intros Hk. exists (mkState prev (String c rest) cap), EmptyString. auto.
Qed.

Lemma starLazy_trace (p : ascii -> bool) (k : Cont) (prev : option ascii)
    (rest : string) (cap : option string) (res : MatchState) :
  starLazy p k prev rest cap = Some res ->
  exists st w, k st = Some res /\ rest = w +:+ ms_rest st /\ ms_cap st = cap
               /\ allUnits p w = true.
Proof.
  revert prev.
  induction rest as [|c rest IH]; intros prev; simpl.
  - destruct (k (mkState prev EmptyString cap)) as [r|] eqn:Hk; [|discriminate].
    intros [= <-]. exists (mkState prev EmptyString cap), EmptyString. auto.
  - destruct (k (mkState prev (String c rest) cap)) as [r|] eqn:Hk.
    + intros [= <-]. exists (mkState prev (String c rest) cap), EmptyString. auto.
    + destruct (p c) eqn:Hpc; [|discriminate].
      intros Hrec. apply IH in Hrec as (st & w & Hk' & -> & Hcap & Hall).
      exists st, (String c w). simpl. rewrite Hpc, Hall. auto.
Qed.

(** A successful run hands its continuation the text left after a prefix
    [w] of what it was given; [w] is at least [minLength r] long, lies in
    [q] when the pattern is made of classes within [q], and the capture is
    untouched when the pattern has no group. *)
Lemma run_trace (r : regex) (k : Cont) (st : MatchState) (res : MatchState) :
  run r k st = Some res ->
  exists st' w,
    k st' = Some res
    /\ ms_rest st = w +:+ ms_rest st'
    /\ (minLength r <= String.length w)%nat
    /\ (groupFree r = true -> ms_cap st' = ms_cap st)
    /\ (forall q, unitsWithin q r -> allUnits q w = true).
Proof.
  revert k st.
  induction r as [|p|s|r1 IH1 r2 IH2|r1 IH1 r2 IH2|p|p|r IH| |];
    intros k st; simpl.
  - intros Hk. exists st, EmptyString.
    split; [exact Hk|]. repeat split; auto.
  - destruct st as [prev [|c rest] cap]; simpl; [discriminate|].
    destruct (p c) eqn:Hpc; [|discriminate].
    intros Hk. eexists _, (String c EmptyString). split; [exact Hk|].
    split; [reflexivity|]. split; [simpl; lia|]. split; [reflexivity|].
    intros q Hq. simpl. now rewrite (Hq c Hpc).
  - intros Hrun. apply litMatch_trace in Hrun as (st' & Hk & Hrest & Hcap).
    exists st', s. split; [exact Hk|]. split; [exact Hrest|].
    split; [lia|]. split; [auto|]. intros q [].
  - intros Hrun. apply IH1 in Hrun as (st1 & w1 & Hrun & Hrest1 & Hlen1 & Hcap1 & Hq1).
    apply IH2 in Hrun as (st2 & w2 & Hk & Hrest2 & Hlen2 & Hcap2 & Hq2).
    exists st2, (w1 +:+ w2). split; [exact Hk|].
    split; [now rewrite append_assoc, <- Hrest2|].
    split; [rewrite length_append; lia|].
    split.
    + intros Hfree. apply andb_true_iff in Hfree as [Hf1 Hf2].
      now rewrite Hcap2, Hcap1.
    + intros q [Hu1 Hu2]. rewrite allUnits_append, Hq1, Hq2; auto.
  - destruct (run r1 k st) as [res1|] eqn:Hfirst.
    + intros [= <-]. apply IH1 in Hfirst as (st1 & w1 & Hk & Hrest1 & Hlen1 & Hcap1 & _).
      exists st1, w1. split; [exact Hk|]. split; [exact Hrest1|].
      split; [lia|]. split; [|intros q []].
      intros Hfree. apply andb_true_iff in Hfree as [Hf1 _]. auto.
    + intros Hsecond. apply IH2 in Hsecond as (st2 & w2 & Hk & Hrest2 & Hlen2 & Hcap2 & _).
      exists st2, w2. split; [exact Hk|]. split; [exact Hrest2|].
      split; [lia|]. split; [|intros q []].
      intros Hfree. apply andb_true_iff in Hfree as [_ Hf2]. auto.
  - intros Hrun. apply starGreedy_trace in Hrun as (st' & w & Hk & Hrest & Hcap & Hall).
    exists st', w. split; [exact Hk|]. split; [exact Hrest|].
    split; [lia|]. split; [auto|].
    intros q Hq. exact (allUnits_weaken p q w Hq Hall).
  - intros Hrun. apply starLazy_trace in Hrun as (st' & w & Hk & Hrest & Hcap & Hall).
    exists st', w. split; [exact Hk|]. split; [exact Hrest|].
    split; [lia|]. split; [auto|].
    intros q Hq. exact (allUnits_weaken p q w Hq Hall).
  - intros Hrun. apply IH in Hrun as (st1 & w & Hk & Hrest & Hlen & _ & _).
    eexists _, w. split; [exact Hk|]. simpl.
    split; [exact Hrest|]. split; [exact Hlen|]. split; [discriminate | intros q []].
  - destruct (atLineStart st); [|discriminate].
    intros Hk. exists st, EmptyString.
    split; [exact Hk|]. repeat split; auto.
  - destruct (atLineEnd st); [|discriminate].
    intros Hk. exists st, EmptyString.
    split; [exact Hk|]. repeat split; auto.
Qed.

(** The text captured by a pattern whose group is a non-empty run of
    classes within [q]. *)
Lemma run_names (q : ascii -> bool) (r : regex) (k : Cont) (st res : MatchState) :
  capturesName q r ->
  run r k st = Some res ->
  exists st' w,
    k st' = Some res /\ ms_cap st' = Some w
    /\ allUnits q w = true /\ w <> EmptyString.
Proof.
  revert k st.
  induction r as [|p|s|r1 IH1 r2 IH2|r1 IH1 r2 IH2|p|p|r IH| |];
    intros k st Hshape; simpl in Hshape; try contradiction.
  - simpl. destruct Hshape as [[Hleft Hfree] | Hright].
    + intros Hrun. apply (IH1 _ _ Hleft) in Hrun as (st1 & w & Hrun & Hcap & Hall & Hne).
      apply run_trace in Hrun as (st2 & _ & Hk & _ & _ & Hkeep & _).
      exists st2, w. rewrite (Hkeep Hfree). auto.
    + intros Hrun. apply run_trace in Hrun as (st1 & _ & Hrun & _).
      apply (IH2 _ _ Hright) in Hrun. exact Hrun.
  - destruct Hshape as [Hunits Hmin]. simpl.
    intros Hrun. apply run_trace in Hrun as (st1 & w & Hk & Hrest & Hlen & _ & Hq).
    eexists _, _. split; [exact Hk|]. simpl.
    rewrite Hrest, length_append.
    replace (String.length w + String.length (ms_rest st1) - String.length (ms_rest st1))%nat
      with (String.length w) by lia.
    rewrite take_app_length.
    split; [reflexivity|]. split; [now apply Hq|].
    intros ->. simpl in Hlen. lia.
Qed.

Lemma matchAt_name (q : ascii -> bool) (r : regex) (prev : option ascii) (pos : Z)
    (rest : string) (m : Match) :
  capturesName q r ->
  matchAt r prev pos rest = Some m ->
  allUnits q (group1 m) = true /\ group1 m <> EmptyString.
Proof.
  intros Hshape. unfold matchAt.
  destruct (run r Some (mkState prev rest None)) as [st|] eqn:Hrun; [|discriminate].
  intros [= <-]. simpl.
  apply (run_names q r _ _ _ Hshape) in Hrun as (st' & w & [= ->] & -> & Hall & Hne).
  simpl. auto.
Qed.

Lemma execFrom_names (q : ascii -> bool) (r : regex) (prev : option ascii) (pos : Z)
    (rest : string) (skip : nat) (m : Match) :
  capturesName q r ->
  In m (execFrom r prev pos rest skip) ->
  allUnits q (group1 m) = true /\ group1 m <> EmptyString.
Proof.
  intros Hshape. revert prev pos skip.
  induction rest as [|c rest IH]; intros prev pos skip; simpl.
  - destruct skip as [|skip]; [|intros []].
    destruct (matchAt r prev pos EmptyString) as [m'|] eqn:Hat; [|intros []].
    intros [<- | []]. exact (matchAt_name q r _ _ _ _ Hshape Hat).
  - destruct skip as [|skip].
    + destruct (matchAt r prev pos (String c rest)) as [m'|] eqn:Hat.
      * intros [<- | Hin]; [exact (matchAt_name q r _ _ _ _ Hshape Hat) | eauto].
      * eauto.
    + eauto.
Qed.

Lemma ident_identDollar (c : ascii) : ident c = true -> identDollar c = true.
Proof. unfold ident, identDollar. intros ->. reflexivity. Qed.

Lemma isLetter_identDollar (c : ascii) : isLetter c = true -> identDollar c = true.
Proof. unfold identDollar. intros ->. reflexivity. Qed.

(** Every pattern of the parsers captures, as group 1, a non-empty run of
    the code units of an identifier. *)
Ltac solve_shape :=
  solve
    [ lia
    | exact ident_identDollar
    | exact isLetter_identDollar
    | (intros ? Hunit; exact Hunit)
    | split; solve_shape
    | left; split; [solve_shape | reflexivity]
    | right; solve_shape ].

Lemma source_patterns_capture_names :
  Forall (capturesName identDollar)
    (js_functionPatterns
       ++ [js_classPattern; py_functionPattern; py_classPattern; go_functionPattern]).
Proof.
  unfold js_functionPatterns. cbn [app].
  repeat (apply List.Forall_cons; [simpl; solve_shape|]).
  apply List.Forall_nil.
Qed.

(** ** Line numbers of a prefix *)

Lemma take_cons (k : nat) (c : ascii) (s : string) :
  take (S k) (String c s) = String c (take k s).
Proof. reflexivity. Qed.

Lemma prefix_lines_monotone (s : string) (k1 k2 : nat) :
  (k1 <= k2)%nat ->
  (length (splitLines (take k1 s)) <= length (splitLines (take k2 s)))%nat.
Proof.
  revert k1 k2.
  induction s as [|c s IH]; intros k1 k2 Hle.
  - destruct k1, k2; simpl; lia.
  - destruct k1 as [|k1].
    + pose proof (splitLines_nonempty (take k2 (String c s))) as Hne.
      destruct (splitLines (take k2 (String c s))); [contradiction | simpl; lia].
    + destruct k2 as [|k2]; [lia|].
      rewrite !take_cons, !splitLines_cons_length.
      specialize (IH k1 k2 ltac:(lia)).
      destruct (Ascii.eqb c newline); lia.
Qed.

Lemma take_all (s : string) (k : nat) :
  (String.length s <= k)%nat -> take k s = s.
Proof.
  revert k. induction s as [|c s IH]; intros k Hk; [now destruct k|].
  destruct k as [|k]; simpl in *; [lia|]. rewrite IH; [reflexivity | lia].
Qed.

(** The line of an offset lies between 1 and the number of lines. *)
Lemma lineOfPrefix_bounds (content : string) (index : Z) :
  1 <= lineOfPrefix content index <= Z.of_nat (length (splitLines content)).
Proof.
  unfold lineOfPrefix. split.
  - pose proof (splitLines_nonempty (take (Z.to_nat index) content)) as Hne.
    destruct (splitLines (take (Z.to_nat index) content)); [contradiction | simpl; lia].
  - pose proof (prefix_lines_monotone content (Z.to_nat index)
                  (Nat.max (Z.to_nat index) (String.length content)) ltac:(lia)) as Hmono.
    rewrite (take_all content (Nat.max _ _)) in Hmono by lia. lia.
Qed.

Lemma lineOfPrefix_monotone (content : string) (i j : Z) :
  i <= j -> lineOfPrefix content i <= lineOfPrefix content j.
Proof.
  intros Hle. unfold lineOfPrefix.
  pose proof (prefix_lines_monotone content (Z.to_nat i) (Z.to_nat j) ltac:(lia)). lia.
Qed.

Section Origins.
Context `{NodePath}.

Lemma stemsFrom_more (patterns patterns' : list regex) (content filePath rel : string)
    (e : CodeEntity) :
  (forall r, In r patterns -> In r patterns') ->
  stemsFrom patterns content filePath rel e ->
  stemsFrom patterns' content filePath rel e.
Proof.
  intros Hsub (pattern & m & Hp & Hrest). exists pattern, m. auto.
Qed.

Lemma js_findFunctions_origin (content filePath rel : string)
    (entities : list CodeEntity) (e : CodeEntity) :
  In e (js_findFunctions content filePath rel entities) ->
  In e entities
  \/ (type e = function
      /\ stemsFrom js_functionPatterns content filePath rel e).
Proof.
  unfold js_findFunctions.
  generalize js_functionPatterns as patterns. intros patterns. revert entities.
  induction patterns as [|pattern patterns IH]; intros entities; simpl; [auto|].
  intros Hin. apply IH in Hin as [Hin | (Htype & Hstem)].
  - assert (Hstep : forall matches acc,
      (forall m, In m matches -> In m (execAll pattern content)) ->
      In e (fold_left (js_functionStep (computeLinePositions content) filePath rel)
              matches acc) ->
      In e acc
      \/ (type e = function
          /\ stemsFrom (pattern :: patterns) content filePath rel e)).
    { induction matches as [|m matches IHm]; intros acc Hsub; simpl; [auto|].
      intros Hfold. apply IHm in Hfold as [Hacc | Hfound]; [|auto | intros; apply Hsub; now right].
      unfold js_functionStep in Hacc.
      destruct (has reservedWords (group1 m)); [auto|].
      apply in_app_or in Hacc as [Hacc | [<- | []]]; [auto|].
      right. split; [reflexivity|]. exists pattern, m. simpl.
      pose proof (Hsub m (or_introl eq_refl)) as Hexec.
      pose proof (execAll_matches pattern content m Hexec) as Hm.
      rewrite searchLine_computeLinePositions by lia.
      pose proof (lineOfPrefix_bounds content (index m)).
      split; [now left|]. split; [exact Hexec|].
      repeat split; auto; lia. }
    apply Hstep in Hin; auto.
  - right. split; [exact Htype|].
    apply (stemsFrom_more patterns); [intros r Hr; now right | exact Hstem].
Qed.

Lemma js_classLoop_origin (content filePath rel : string) (lp : list Z)
    (matches : list Match) (found : gset string)
    (entities result : list CodeEntity) (e : CodeEntity) :
  lp = computeLinePositions content \/ lp = [] ->
  (forall m, In m matches -> In m (execAll js_classPattern content)) ->
  js_classLoop lp (splitLines content) filePath rel matches found entities
  = Return result ->
  In e result ->
  In e entities
  \/ (type e = class
      /\ stemsFrom [js_classPattern] content filePath rel e
      /\ exists m lineContent,
           In m (execAll js_classPattern content)
           /\ name e = group1 m
           /\ line e = match searchLine lp (index m) with
                       | Some mid => mid
                       | None => 0
                       end + 1
           /\ at_ (splitLines content) (line e - 1) = Some lineContent
           /\ js_rejectLine lineContent = false).
Proof.
  intros Hlp. revert found entities.
  induction matches as [|m matches IH]; intros found entities Hsub; simpl.
  - intros [= <-]. auto.
  - assert (Hsub' : forall m', In m' matches -> In m' (execAll js_classPattern content))
      by (intros; apply Hsub; now right).
    destruct (has found _); [now apply IH|].
    set (lineNumber := match searchLine lp (index m) with
                       | Some mid => mid
                       | None => 0
                       end).
    destruct (at_ (splitLines content) lineNumber) as [lineContent|] eqn:Hline;
      [|discriminate].
    destruct (js_rejectLine lineContent) eqn:Hreject; [now apply IH|].
    intros Hloop Hin.
    destruct (IH _ _ Hsub' Hloop Hin) as [Hacc | Hfound]; [|auto].
    apply in_app_or in Hacc as [Hacc | [<- | []]]; [auto|].
    right. split; [reflexivity|]. simpl.
    replace (lineNumber + 1 - 1) with lineNumber by lia.
    split; [|exists m, lineContent; repeat split; auto; apply Hsub; now left].
    exists js_classPattern, m. simpl.
    split; [now left|]. split; [apply Hsub; now left|].
    assert (Hrange : 0 <= lineNumber < Z.of_nat (length (splitLines content))).
    { unfold at_ in Hline.
      destruct (lineNumber <? 0) eqn:Hneg; [discriminate|].
      apply Z.ltb_ge in Hneg. apply lookup_lt_Some in Hline. lia. }
    repeat split; auto; lia.
Qed.

Lemma prefixFunctionStep_fold_map (content filePath rel : string)
    (matches : list Match) (entities : list CodeEntity) :
  fold_left (prefixFunctionStep content filePath rel) matches entities
  = entities
    ++ List.map
         (fun m => {| name := group1 m;
                      line := lineOfPrefix content (index m);
                      file := path_basename filePath;
                      relativePath := rel;
                      type := function |})
         matches.
Proof.
  revert entities.
  induction matches as [|m matches IH]; intros entities; simpl.
  - now rewrite app_nil_r.
  - rewrite IH. unfold prefixFunctionStep. now rewrite <- app_assoc.
Qed.

Lemma prefixFunctions_origin (pattern : regex) (content filePath rel : string)
    (e : CodeEntity) :
  In e (fold_left (prefixFunctionStep content filePath rel)
          (execAll pattern content) []) ->
  type e = function /\ stemsFrom [pattern] content filePath rel e.
Proof.
  rewrite prefixFunctionStep_fold_map. simpl.
  intros Hin. apply in_map_iff in Hin as (m & <- & Hm).
  split; [reflexivity|]. exists pattern, m. simpl.
  pose proof (lineOfPrefix_bounds content (index m)).
  repeat split; auto; lia.
Qed.

Lemma py_classLoop_origin (content filePath rel : string)
    (matches : list Match) (found : gset string)
    (entities result : list CodeEntity) (e : CodeEntity) :
  (forall m, In m matches -> In m (execAll py_classPattern content)) ->
  py_classLoop content (splitLines content) filePath rel matches found entities
  = Return result ->
  In e result ->
  In e entities
  \/ (type e = class
      /\ stemsFrom [py_classPattern] content filePath rel e
      /\ exists m lineContent,
           In m (execAll py_classPattern content)
           /\ name e = group1 m
           /\ line e = lineOfPrefix content (index m)
           /\ at_ (splitLines content) (line e - 1) = Some lineContent
           /\ py_rejectLine lineContent = false).
Proof.
  revert found entities.
  induction matches as [|m matches IH]; intros found entities Hsub; simpl.
  - intros [= <-]. auto.
  - assert (Hsub' : forall m', In m' matches -> In m' (execAll py_classPattern content))
      by (intros; apply Hsub; now right).
    destruct (has found _); [now apply IH|].
    pose proof (lineOfPrefix_bounds content (index m)) as Hbounds.
    replace ((0 <? lineOfPrefix content (index m))
             && (lineOfPrefix content (index m)
                 <=? Z.of_nat (length (splitLines content))))
      with true
      by (symmetry; apply andb_true_iff; split;
          [apply Z.ltb_lt | apply Z.leb_le]; lia).
    destruct (at_ (splitLines content) (lineOfPrefix content (index m) - 1))
      as [lineContent|] eqn:Hline; [|discriminate].
    simpl.
    destruct (py_rejectLine lineContent) eqn:Hreject; [now apply IH|].
    intros Hloop Hin.
    destruct (IH _ _ Hsub' Hloop Hin) as [Hacc | Hfound]; [|auto].
    apply in_app_or in Hacc as [Hacc | [<- | []]]; [auto|].
    right. split; [reflexivity|]. simpl. split.
    + exists py_classPattern, m. simpl.
      split; [now left|]. split; [apply Hsub; now left|].
      repeat split; auto; lia.
    + exists m, lineContent. repeat split; auto. apply Hsub. now left.
Qed.

Lemma sourcePatterns_js (r : regex) : In r js_functionPatterns -> In r sourcePatterns.
Proof. intros Hr. apply in_or_app. now left. Qed.

Lemma sourcePatterns_rest (r : regex) :
  In r [js_classPattern; py_functionPattern; py_classPattern; go_functionPattern] ->
  In r sourcePatterns.
Proof. intros Hr. apply in_or_app. now right. Qed.

(** Every record a parser returns stems from a match of one of its
    patterns in the text of the file, is attributed to that file and has a
    line of that text. *)
Lemma parseFile_origin (env : Env) (parser : Parser) (filePath basePath : string)
    (entities : list CodeEntity) (e : CodeEntity) :
  parseFile env parser filePath basePath = Return entities ->
  In e entities ->
  stemsFrom sourcePatterns
    (readFileContent env filePath) filePath (relativeTo basePath filePath) e.
Proof.
  destruct parser; cbn [parseFile].
  - unfold js_parseFile, js_findClasses. intros Hparse Hin.
    eapply js_classLoop_origin in Hparse as [Hfun | (_ & Hstem & _)];
      [| |destruct (Z.of_nat _ =? 0); auto |auto |exact Hin].
    + apply js_findFunctions_origin in Hfun as [[] | (_ & Hstem)].
      eapply stemsFrom_more; [apply sourcePatterns_js | exact Hstem].
    + eapply stemsFrom_more; [|exact Hstem].
      intros r [<- | []]. apply sourcePatterns_rest. simpl. auto.
  - unfold py_parseFile, py_findClasses. intros Hparse Hin.
    eapply py_classLoop_origin in Hparse as [Hfun | (_ & Hstem & _)];
      [| |auto |exact Hin].
    + apply prefixFunctions_origin in Hfun as (_ & Hstem).
      eapply stemsFrom_more; [|exact Hstem].
      intros r [<- | []]. apply sourcePatterns_rest. simpl. auto.
    + eapply stemsFrom_more; [|exact Hstem].
      intros r [<- | []]. apply sourcePatterns_rest. simpl. auto.
  - unfold go_parseFile. intros [= <-] Hin.
    apply prefixFunctions_origin in Hin as (_ & Hstem).
    eapply stemsFrom_more; [|exact Hstem].
    intros r [<- | []]. apply sourcePatterns_rest. simpl. auto.
Qed.

End Origins.

Lemma sourcePatterns_names (pattern : regex) (content : string) (m : Match) :
  In pattern sourcePatterns -> In m (execAll pattern content) ->
  group1 m <> EmptyString /\ allUnits identDollar (group1 m) = true.
Proof.
  intros Hp Hm.
  pose proof source_patterns_capture_names as Hall.
  rewrite List.Forall_forall in Hall.
  destruct (execFrom_names identDollar pattern None 0 content 0 m (Hall pattern Hp) Hm).
  auto.
Qed.

Lemma execFrom_ascending (r : regex) (prev : option ascii) (pos : Z) (rest : string)
    (skip : nat) :
  StronglySorted (fun a b => index a <= index b) (execFrom r prev pos rest skip).
Proof.
  revert prev pos skip.
  induction rest as [|c rest IH]; intros prev pos skip; simpl.
  - destruct skip; [|constructor].
    destruct (matchAt r prev pos EmptyString); repeat constructor.
  - destruct skip as [|skip]; [|apply IH].
    destruct (matchAt r prev pos (String c rest)) as [m|] eqn:Hat; [|apply IH].
    constructor; [apply IH|].
    apply List.Forall_forall. intros m' Hin.
    apply execFrom_matches in Hin. apply matchAt_length in Hat as (-> & _). lia.
Qed.

Lemma StronglySorted_map {A B : Type} (R : A -> A -> Prop) (S : B -> B -> Prop)
    (f : A -> B) (l : list A) :
  (forall a b, R a b -> S (f a) (f b)) ->
  StronglySorted R l -> StronglySorted S (List.map f l).
Proof.
  intros Hf. induction 1 as [|a l Hl IH Hall]; simpl; constructor; [exact IH|].
  apply List.Forall_forall. intros b Hb. apply in_map_iff in Hb as (a' & <- & Ha').
  rewrite List.Forall_forall in Hall. auto.
Qed.

Section Records.
Context `{NodePath}.

Lemma py_classLoop_unique (content : string) (lines : list string)
    (filePath rel : string) (matches : list Match)
    (found : gset string) (entities result : list CodeEntity) :
  py_classLoop content lines filePath rel matches found entities = Return result ->
  exists added,
    result = entities ++ added
    /\ NoDup (List.map name added)
    /\ Forall (fun e => type e = class) added
    /\ Forall (fun e => name e +:+ ":" +:+ filePath ∉ found) added.
Proof.
  revert found entities.
  induction matches as [|m matches IH]; intros found entities; simpl.
  - intros [= <-]. exists []. split; [now rewrite app_nil_r|].
    repeat split; constructor.
  - destruct (has found _) eqn:Hfound; [apply IH|].
    destruct (if _ : bool then _ else _) as [lineContent|]; [|discriminate].
    simpl.
    destruct (py_rejectLine lineContent); [apply IH|].
    intros Hloop. apply IH in Hloop as (added & -> & Hnodup & Hclass & Hkeys).
    eexists (_ :: added). split; [now rewrite <- app_assoc|].
    rewrite Forall_forall in Hkeys.
    split; [|split].
    + simpl. constructor; [|exact Hnodup].
      intros Hin. apply list_elem_of_In, in_map_iff in Hin as (e & Hname & Hin).
      apply (Hkeys e); [now apply list_elem_of_In|].
      rewrite Hname. set_solver.
    + constructor; [reflexivity | exact Hclass].
    + constructor.
      * simpl. now apply has_false.
      * apply Forall_forall. intros e He. specialize (Hkeys e He). set_solver.
Qed.

Lemma filter_class_functions (l : list CodeEntity) :
  Forall (fun e => type e = function) l ->
  List.filter (fun e => EntityType_eqb (type e) class) l = [].
Proof.
  induction 1 as [|e l Htype _ IH]; [reflexivity|].
  simpl. now rewrite Htype.
Qed.

Lemma filter_class_classes (l : list CodeEntity) :
  Forall (fun e => type e = class) l ->
  List.filter (fun e => EntityType_eqb (type e) class) l = l.
Proof.
  induction 1 as [|e l Htype _ IH]; [reflexivity|].
  simpl. now rewrite Htype, IH.
Qed.

Lemma filter_function_functions (l : list CodeEntity) :
  Forall (fun e => type e = function) l ->
  List.filter (fun e => EntityType_eqb (type e) function) l = l.
Proof.
  induction 1 as [|e l Htype _ IH]; [reflexivity|].
  simpl. now rewrite Htype, IH.
Qed.

Lemma filter_function_classes (l : list CodeEntity) :
  Forall (fun e => type e = class) l ->
  List.filter (fun e => EntityType_eqb (type e) function) l = [].
Proof.
  induction 1 as [|e l Htype _ IH]; [reflexivity|].
  simpl. now rewrite Htype.
Qed.

Lemma prefixFunctions_typed (pattern : regex) (content filePath rel : string) :
  Forall (fun e => type e = function)
    (fold_left (prefixFunctionStep content filePath rel) (execAll pattern content) []).
Proof.
  rewrite prefixFunctionStep_fold_map. simpl.
  apply Forall_forall. intros e He.
  apply list_elem_of_In, in_map_iff in He as (m & <- & _). reflexivity.
Qed.

Lemma prefixFunctions_ascending (pattern : regex) (content filePath rel : string) :
  StronglySorted Z.le
    (List.map line
       (fold_left (prefixFunctionStep content filePath rel)
          (execAll pattern content) [])).
Proof.
  rewrite prefixFunctionStep_fold_map. simpl. rewrite List.map_map. simpl.
  apply (StronglySorted_map (fun a b => index a <= index b)).
  - intros a b. apply lineOfPrefix_monotone.
  - apply execFrom_ascending.
Qed.

(** X1. Record names: for each of the three parsers and every file, the
    name of every record returned is a non-empty string of letters, digits,
    underscores and dollar signs. *)
Theorem record_names_are_identifiers (env : Env) (parser : Parser)
    (filePath basePath : string) :
  exists entities,
    parseFile env parser filePath basePath = Return entities
    /\ Forall (fun e => name e <> EmptyString
                        /\ allUnits identDollar (name e) = true) entities.
Proof.
  destruct (parseFile_returns env parser filePath basePath) as [entities Hparse].
  exists entities. split; [exact Hparse|].
  apply Forall_forall. intros e He. apply list_elem_of_In in He.
  destruct (parseFile_origin env parser filePath basePath entities e Hparse He)
    as (pattern & m & Hp & Hm & -> & _).
  exact (sourcePatterns_names pattern _ m Hp Hm).
Qed.

(** X2. Attribution: every record a parser returns for a file carries the
    base name of that file and its path relative to the base directory
    (the file path itself when no base directory is given). *)
Theorem records_carry_their_file (env : Env) (parser : Parser)
    (filePath basePath : string) :
  exists entities,
    parseFile env parser filePath basePath = Return entities
    /\ Forall (fun e => file e = path_basename filePath
                        /\ relativePath e
                           = (if String.eqb basePath EmptyString then filePath
                              else path_relative basePath filePath)) entities.
Proof.
  destruct (parseFile_returns env parser filePath basePath) as [entities Hparse].
  exists entities. split; [exact Hparse|].
  apply Forall_forall. intros e He. apply list_elem_of_In in He.
  destruct (parseFile_origin env parser filePath basePath entities e Hparse He)
    as (pattern & m & _ & _ & _ & Hfile & Hrel & _).
  split; [exact Hfile|]. rewrite Hrel. now destruct basePath.
Qed.

(** X3. Line bounds: the line of every record lies between 1 and the
    number of lines of the text the parser read. *)
Theorem record_lines_are_lines_of_the_file (env : Env) (parser : Parser)
    (filePath basePath : string) :
  exists entities,
    parseFile env parser filePath basePath = Return entities
    /\ Forall (fun e => 1 <= line e
                        <= Z.of_nat (length (splitLines (readFileContent env filePath))))
         entities.
Proof.
  destruct (parseFile_returns env parser filePath basePath) as [entities Hparse].
  exists entities. split; [exact Hparse|].
  apply Forall_forall. intros e He. apply list_elem_of_In in He.
  destruct (parseFile_origin env parser filePath basePath entities e Hparse He)
    as (pattern & m & _ & _ & _ & _ & _ & Hline).
  exact Hline.
Qed.

(** X4. Function lines of [JSParser]: every function record stems from a
    match of one of the three patterns, bears the name captured by that
    match, and its line is the number of line breaks before the first code
    unit of the match, plus one. *)
Theorem js_function_lines_are_exact (content filePath rel : string) :
  Forall
    (fun e =>
       type e = function
       /\ exists pattern m,
            In pattern js_functionPatterns /\ In m (execAll pattern content)
            /\ name e = group1 m
            /\ line e = Z.of_nat (length (splitLines (take (Z.to_nat (index m)) content))))
    (js_findFunctions content filePath rel []).
Proof.
  apply Forall_forall. intros e He. apply list_elem_of_In in He.
  exact (js_function_record_lines content filePath rel e He).
Qed.

(** X5. In a file in which no function pattern matches, [JSParser] gives
    each class record the line that holds the first code unit of its match,
    and the text of that line has passed the comment and string test. *)
Theorem js_class_lines_without_functions (env : Env) (filePath basePath : string) :
  js_findFunctions (readFileContent env filePath) filePath
    (relativeTo basePath filePath) [] = [] ->
  exists entities,
    js_parseFile env filePath basePath = Return entities
    /\ Forall
         (fun e =>
            type e = class
            /\ exists m lineContent,
                 In m (execAll js_classPattern (readFileContent env filePath))
                 /\ name e = group1 m
                 /\ line e = lineOfPrefix (readFileContent env filePath) (index m)
                 /\ at_ (splitLines (readFileContent env filePath)) (line e - 1)
                    = Some lineContent
                 /\ js_rejectLine lineContent = false)
         entities.
Proof.
  intros Hnone.
  destruct (parseFile_returns env JSParser filePath basePath) as [entities Hparse].
  cbn [parseFile] in Hparse.
  exists entities. split; [exact Hparse|].
  unfold js_parseFile, js_findClasses in Hparse. rewrite Hnone in Hparse.
  simpl (Z.of_nat (length []) =? 0) in Hparse. cbv iota in Hparse.
  apply Forall_forall. intros e He. apply list_elem_of_In in He.
  destruct (js_classLoop_origin (readFileContent env filePath) filePath
              (relativeTo basePath filePath)
              (computeLinePositions (readFileContent env filePath))
              _ ∅ [] entities e (or_introl eq_refl) (fun m Hm => Hm) Hparse He)
    as [Hnil | (Htype & _ & m & lineContent & Hm & Hname & Hline & Hat & Hreject)];
    [destruct Hnil|].
  split; [exact Htype|]. exists m, lineContent.
  repeat split; auto.
  rewrite Hline, searchLine_computeLinePositions; [lia|].
  apply execAll_matches in Hm. lia.
Qed.

(** X6. Class names: in the result of any parser for one file, the class
    records bear pairwise distinct names. *)
Theorem class_names_are_unique_per_file (env : Env) (parser : Parser)
    (filePath basePath : string) :
  exists entities,
    parseFile env parser filePath basePath = Return entities
    /\ NoDup (List.map name
                (List.filter (fun e => EntityType_eqb (type e) class) entities)).
Proof.
  destruct (parseFile_returns env parser filePath basePath) as [entities Hparse].
  exists entities. split; [exact Hparse|].
  destruct parser; cbn [parseFile] in Hparse.
  - exact (js_class_names_unique env filePath basePath entities Hparse).
  - unfold py_parseFile, py_findClasses, py_findFunctions in Hparse.
    apply py_classLoop_unique in Hparse as (added & -> & Hnodup & Hclass & _).
    rewrite List.filter_app.
    rewrite (filter_class_functions _
               (prefixFunctions_typed py_functionPattern _ filePath _)).
    simpl. now rewrite (filter_class_classes added Hclass).
  - unfold go_parseFile, go_findFunctions in Hparse. injection Hparse as <-.
    rewrite (filter_class_functions _
               (prefixFunctions_typed go_functionPattern _ filePath _)).
    constructor.
Qed.

(** X7. Python classes: every class record of [PythonParser] sits on the
    line that holds the first code unit of its match, and the text of that
    line has passed the comment and string test; in particular the line
    does not start, blanks aside, with a hash sign. *)
Theorem py_class_lines_pass_the_line_test (env : Env) (filePath basePath : string) :
  exists entities,
    py_parseFile env filePath basePath = Return entities
    /\ Forall
         (fun e =>
            exists m lineContent,
              In m (execAll py_classPattern (readFileContent env filePath))
              /\ name e = group1 m
              /\ line e = Z.of_nat (length (splitLines
                            (take (Z.to_nat (index m)) (readFileContent env filePath))))
              /\ at_ (splitLines (readFileContent env filePath)) (line e - 1)
                 = Some lineContent
              /\ py_rejectLine lineContent = false
              /\ startsWith (trim lineContent) "#" = false)
         (List.filter (fun e => EntityType_eqb (type e) class) entities).
Proof.
  destruct (parseFile_returns env PythonParser filePath basePath) as [entities Hparse].
  cbn [parseFile] in Hparse.
  exists entities. split; [exact Hparse|].
  unfold py_parseFile, py_findClasses in Hparse.
  apply Forall_forall. intros e He.
  apply list_elem_of_In, filter_In in He as [He Htype].
  eapply py_classLoop_origin in Hparse
    as [Hfun | (_ & _ & m & lineContent & Hm & Hname & Hline & Hat & Hreject)];
    [| |auto |exact He].
  - apply prefixFunctions_origin in Hfun as (Hfunction & _).
    rewrite Hfunction in Htype. discriminate.
  - exists m, lineContent. repeat split; auto.
    unfold py_rejectLine in Hreject.
    apply orb_false_iff in Hreject as [Hreject _].
    apply orb_false_iff in Hreject as [Hreject _]. exact Hreject.
Qed.

(** X8. Scan order: the function records [PythonParser] and [GoParser]
    return for a file come in the order of their matches, so their lines
    never decrease along the list. *)
Theorem prefix_parsers_list_functions_in_line_order (env : Env)
    (filePath basePath : string) :
  (exists entities,
     py_parseFile env filePath basePath = Return entities
     /\ StronglySorted Z.le
          (List.map line
             (List.filter (fun e => EntityType_eqb (type e) function) entities)))
  /\ (exists entities,
        go_parseFile env filePath basePath = Return entities
        /\ StronglySorted Z.le (List.map line entities)).
Proof.
  split.
  - destruct (parseFile_returns env PythonParser filePath basePath) as [entities Hparse].
    cbn [parseFile] in Hparse.
    exists entities. split; [exact Hparse|].
    unfold py_parseFile, py_findClasses, py_findFunctions in Hparse.
    apply py_classLoop_unique in Hparse as (added & -> & _ & Hclass & _).
    rewrite List.filter_app, (filter_function_classes added Hclass), app_nil_r.
    rewrite (filter_function_functions _
               (prefixFunctions_typed py_functionPattern _ filePath _)).
    apply prefixFunctions_ascending.
  - eexists. split; [reflexivity|].
    unfold go_findFunctions. apply prefixFunctions_ascending.
Qed.

End Records.

(** ** Lines and their join *)

Lemma unlines_cons (l : string) (ls : list string) :
  ls <> [] -> unlines (l :: ls) = l +:+ String newline (unlines ls).
Proof. destruct ls; [contradiction | reflexivity]. Qed.

Lemma unlines_splitLines (s : string) : unlines (splitLines s) = s.
Proof.
  induction s as [|c s IH]; [reflexivity|].
  pose proof (splitLines_nonempty s) as Hne.
  cbn [splitLines]. destruct (Ascii.eqb_spec c newline) as [->|Hc].
  - rewrite unlines_cons by exact Hne. now rewrite IH.
  - destruct (splitLines s) as [|l ls]; [contradiction|].
    destruct ls as [|l' ls].
    + simpl in IH. simpl. now rewrite IH.
    + rewrite unlines_cons in IH by discriminate.
      rewrite unlines_cons by discriminate.
      rewrite append_cons. now rewrite IH.
Qed.

Lemma splitLines_singleLine (s : string) :
  Forall (fun l => singleLine l = true) (splitLines s).
Proof.
  induction s as [|c s IH]; [repeat constructor|].
  pose proof (splitLines_nonempty s) as Hne.
  cbn [splitLines]. destruct (Ascii.eqb c newline) eqn:Hc.
  - constructor; [reflexivity | exact IH].
  - destruct (splitLines s) as [|l ls]; [contradiction|].
    inversion IH as [|? ? Hl Hls]; subst.
    constructor; [|exact Hls].
    unfold singleLine in *. simpl. now rewrite Hc, Hl.
Qed.

(** X9. [getLineContent] reads the lines that [split] produces: joined by
    line breaks, the lines at the indices 0 to n - 1 give back the text; a
    line holds no line break; outside these indices the result is the empty
    string. *)
Theorem getLineContent_lines_rebuild_the_text (content : string) :
  unlines (List.map (fun i => getLineContent content (Z.of_nat i))
             (seq 0 (length (splitLines content)))) = content
  /\ (forall lineNumber, singleLine (getLineContent content lineNumber) = true)
  /\ (forall lineNumber,
        lineNumber < 0 \/ Z.of_nat (length (splitLines content)) <= lineNumber ->
        getLineContent content lineNumber = EmptyString).
Proof.
  split; [|split].
  - rewrite <- (unlines_splitLines content) at 2. f_equal.
    apply list_eq. intros i.
    change (List.map ?f ?l) with (f <$> l).
    rewrite list_lookup_fmap.
    destruct (decide (i < length (splitLines content))%nat) as [Hlt | Hge].
    + rewrite lookup_seq_lt by exact Hlt. simpl.
      unfold getLineContent.
      replace ((0 <=? Z.of_nat i) && (Z.of_nat i <? Z.of_nat (length (splitLines content))))
        with true
        by (symmetry; apply andb_true_iff; split;
            [apply Z.leb_le | apply Z.ltb_lt]; lia).
      rewrite Nat2Z.id.
      destruct (lookup_lt_is_Some_2 (splitLines content) i Hlt) as [l ->]. reflexivity.
    + rewrite lookup_seq_ge by lia. simpl.
      symmetry. apply lookup_ge_None. lia.
  - intros lineNumber. unfold getLineContent.
    destruct ((0 <=? lineNumber) && _); [|reflexivity].
    destruct (splitLines content !! Z.to_nat lineNumber) as [l|] eqn:Hl; [|reflexivity].
    simpl. pose proof (splitLines_singleLine content) as Hall.
    rewrite Forall_forall in Hall. apply Hall.
    apply list_elem_of_lookup. eauto.
  - intros lineNumber Hout. unfold getLineContent.
    replace ((0 <=? lineNumber) && (lineNumber <? Z.of_nat (length (splitLines content))))
      with false; [reflexivity|].
    symmetry. apply andb_false_iff.
    destruct Hout; [left; apply Z.leb_gt | right; apply Z.ltb_ge]; lia.
Qed.

(** ** Trimming *)

Lemma rev_app_append (s acc : string) : String.rev_app s acc = String.rev s +:+ acc.
Proof.
  unfold String.rev. revert acc.
  induction s as [|c s IH]; intros acc; [reflexivity|].
  cbn [String.rev_app]. rewrite (IH (String c acc)), (IH (String c EmptyString)).
  now rewrite append_assoc.
Qed.

Lemma rev_cons (c : ascii) (s : string) :
  String.rev (String c s) = String.rev s +:+ String c EmptyString.
Proof. unfold String.rev at 1. cbn [String.rev_app]. apply rev_app_append. Qed.

Lemma rev_append (a b : string) : String.rev (a +:+ b) = String.rev b +:+ String.rev a.
Proof.
  induction a as [|c a IH].
  - rewrite append_empty_l. now rewrite append_empty_r.
  - rewrite append_cons, !rev_cons, IH. now rewrite append_assoc.
Qed.

Lemma rev_involutive (s : string) : String.rev (String.rev s) = s.
Proof.
  induction s as [|c s IH]; [reflexivity|].
  rewrite rev_cons, rev_append, IH. reflexivity.
Qed.

Lemma allUnits_rev (q : ascii -> bool) (s : string) :
  allUnits q (String.rev s) = allUnits q s.
Proof.
  induction s as [|c s IH]; [reflexivity|].
  rewrite rev_cons, allUnits_append, IH. simpl. rewrite andb_true_r. apply andb_comm.
Qed.

Lemma trimStart_clean (s : string) : startsClean s = true -> trimStart s = s.
Proof. destruct s as [|c s]; [reflexivity|]. simpl. now intros ->%negb_true_iff. Qed.

Lemma trimStart_split (s : string) :
  exists w, s = w +:+ trimStart s /\ startsClean (trimStart s) = true.
Proof.
  induction s as [|c s (w & Hw & Hclean)]; [now exists EmptyString|].
  simpl. destruct (isWhiteSpace c) eqn:Hc.
  - exists (String c w). split; [now rewrite append_cons, <- Hw | exact Hclean].
  - exists EmptyString. split; [reflexivity|]. simpl. now rewrite Hc.
Qed.

Lemma startsClean_prefix (a b : string) :
  startsClean (a +:+ b) = true -> a <> EmptyString -> startsClean a = true.
Proof. destruct a as [|c a]; [contradiction | auto]. Qed.

Lemma allUnits_trimStart (q : ascii -> bool) (s : string) :
  allUnits q s = true -> allUnits q (trimStart s) = true.
Proof.
  induction s as [|c s IH]; [reflexivity|]. simpl.
  destruct (isWhiteSpace c); [|auto].
  intros [_ Hs]%andb_true_iff. auto.
Qed.

(** What [trim] returns begins and ends with a code unit that is not white
    space, unless it is empty. *)
Lemma trim_clean (s : string) :
  startsClean (trim s) = true /\ startsClean (String.rev (trim s)) = true.
Proof.
  unfold trim.
  destruct (trimStart_split s) as (w1 & _ & Hclean1).
  set (a := trimStart s) in *.
  destruct (trimStart_split (String.rev a)) as (w2 & Hw2 & Hclean2).
  set (b := trimStart (String.rev a)) in *.
  split; [|now rewrite rev_involutive].
  assert (Ha : a = String.rev b +:+ String.rev w2).
  { rewrite <- rev_append, <- Hw2. now rewrite rev_involutive. }
  destruct (String.rev b) as [|c t] eqn:Hb; [reflexivity|].
  rewrite Ha in Hclean1. exact Hclean1.
Qed.

Lemma trim_idempotent (s : string) : trim (trim s) = trim s.
Proof.
  destruct (trim_clean s) as [Hstart Hend].
  unfold trim at 1.
  rewrite (trimStart_clean _ Hstart), (trimStart_clean _ Hend).
  apply rev_involutive.
Qed.

Lemma singleLine_trim (s : string) : singleLine s = true -> singleLine (trim s) = true.
Proof.
  unfold singleLine, trim. intros Hs.
  rewrite allUnits_rev. apply allUnits_trimStart.
  rewrite allUnits_rev. now apply allUnits_trimStart.
Qed.

Section Gitignore.
Context `{NodePath}.

(** X10. Ignore patterns as read: every pattern [readGitignore] returns is
    non-empty, does not start with a hash sign, neither begins nor ends with
    white space (trimming it again changes nothing) and holds no line
    break. *)
Theorem gitignore_patterns_are_clean (env : Env) (dirPath : string) :
  Forall
    (fun pattern =>
       pattern <> EmptyString
       /\ startsWith pattern "#" = false
       /\ trim pattern = pattern
       /\ singleLine pattern = true)
    (readGitignore env dirPath).
Proof.
  unfold readGitignore.
  destruct (negb (existsSync (fs env) (path_join dirPath ".gitignore")));
    [constructor|].
  destruct (readFileSync (fs env) (path_join dirPath ".gitignore")) as [content|e];
    simpl; [|constructor].
  apply Forall_forall. intros pattern Hin.
  apply list_elem_of_In, filter_In in Hin as [Hin Hkeep].
  apply in_map_iff in Hin as (l & <- & Hl).
  apply andb_true_iff in Hkeep as [Hlen Hhash].
  split; [|split; [|split]].
  - intros Hempty. rewrite Hempty in Hlen. discriminate.
  - now apply negb_true_iff.
  - apply trim_idempotent.
  - apply singleLine_trim.
    pose proof (splitLines_singleLine content) as Hall.
    rewrite Forall_forall in Hall. apply Hall. now apply list_elem_of_In.
Qed.

(** X11. The allow-list of the collector and the language table agree: a
    path is given a language other than unknown exactly when its extension,
    in lower case, is one of the supported extensions. *)
Theorem supported_extensions_are_the_known_languages (filePath : string) :
  getFileLanguage filePath <> "unknown"
  <-> In (toLowerCase (path_extname filePath)) SUPPORTED_EXTENSIONS.
Proof.
  unfold getFileLanguage, SUPPORTED_EXTENSIONS.
  generalize (toLowerCase (path_extname filePath)) as ext. intros ext.
  repeat match goal with
         | |- context [String.eqb ext ?s] =>
             destruct (String.eqb_spec ext s) as [-> | ?]
         end;
    simpl; split; intros Hgoal; try discriminate; try tauto; try congruence.
  all: try (exfalso; intuition congruence).
Qed.

(** X12. Dispatch: a path is parsed by [PythonParser] exactly when its
    extension is [.py] in any case, by [GoParser] exactly when it is [.go],
    and by [JSParser] otherwise; some parser is always chosen. *)
Theorem parser_is_chosen_by_extension (filePath : string) :
  let ext := toLowerCase (path_extname filePath) in
  getParserForFile filePath
  = Some (if String.eqb ext ".py" then PythonParser
          else if String.eqb ext ".go" then GoParser
          else JSParser).
Proof.
  unfold getParserForFile, getFileLanguage.
  generalize (toLowerCase (path_extname filePath)) as ext. intros ext. simpl.
  repeat match goal with
         | |- context [String.eqb ext ?s] =>
             destruct (String.eqb_spec ext s) as [-> | ?]
         end; reflexivity.
Qed.

End Gitignore.

Section ScanMore.
Context `{NodePath}.

Lemma getParserForFile_some (filePath : string) :
  exists parser, getParserForFile filePath = Some parser.
Proof.
  unfold getParserForFile.
  destruct (_ || _); [eauto|]. destruct (String.eqb _ _); [eauto|].
  destruct (String.eqb _ _); eauto.
Qed.

Lemma forFiles_concat (env : Env) (base : string) (files : list string) :
  exists perFile,
    Forall2 (parsedAs env base) files perFile
    /\ forall keep all,
         forFiles env keep base files all
         = Return (all ++ concat (List.map (keepType keep) perFile)).
Proof.
  induction files as [|file files (perFile & Hall & Hloop)].
  - exists []. split; [constructor|]. intros keep all. simpl. now rewrite app_nil_r.
  - destruct (getParserForFile file) as [parser|] eqn:Hparser.
    + destruct (parseFile_returns env parser file base) as [entities Hparse].
      exists (entities :: perFile). split.
      * constructor; [|exact Hall]. exists parser. auto.
      * intros keep all. simpl. rewrite Hparser, Hparse. simpl.
        rewrite Hloop. now rewrite <- app_assoc.
    + exists ([] :: perFile). split.
      * destruct (getParserForFile_some file) as [parser Hsome]. congruence.
      * intros keep all. simpl. rewrite Hparser. apply Hloop.
Qed.

Lemma keepType_typed (keep : EntityType) (entities : list CodeEntity) :
  Forall (fun e => type e = keep) (keepType keep entities).
Proof.
  apply Forall_forall. intros e He.
  apply list_elem_of_In, filter_In in He as [_ Heq].
  destruct (type e), keep; simpl in Heq; congruence.
Qed.

(** X13. A scan is the concatenation of its files: with the files in the
    order the collector returns them, [getFunctions] returns the function
    records and [getClasses] the class records of what the parser chosen
    for each file returns, file after file. *)
Theorem scan_concatenates_the_files (env : Env) (dirPath : string) (maxDepth : Z) :
  exists files perFile,
    getFilesInDirectory env (path_resolve dirPath) maxDepth = Return files
    /\ Forall2 (parsedAs env (path_resolve dirPath)) files perFile
    /\ getFunctions env dirPath maxDepth
       = Return (concat (List.map (keepType function) perFile))
    /\ getClasses env dirPath maxDepth
       = Return (concat (List.map (keepType class) perFile)).
Proof.
  destruct (getFilesInDirectory_returns env (path_resolve dirPath) maxDepth)
    as [files Hfiles].
  destruct (forFiles_concat env (path_resolve dirPath) files)
    as (perFile & Hall & Hloop).
  exists files, perFile. split; [exact Hfiles|]. split; [exact Hall|].
  unfold getFunctions, getClasses.
  rewrite !(analyze_eq env _ dirPath maxDepth files Hfiles), !Hloop. auto.
Qed.

(** X14. The kind filter: [getFunctions] returns records of type function
    only, and [getClasses] records of type class only. *)
Theorem analyzers_return_one_kind (env : Env) (dirPath : string) (maxDepth : Z) :
  (exists functions,
     getFunctions env dirPath maxDepth = Return functions
     /\ Forall (fun e => type e = function) functions)
  /\ (exists classes,
        getClasses env dirPath maxDepth = Return classes
        /\ Forall (fun e => type e = class) classes).
Proof.
  destruct (getFilesInDirectory_returns env (path_resolve dirPath) maxDepth)
    as [files Hfiles].
  destruct (forFiles_concat env (path_resolve dirPath) files)
    as (perFile & _ & Hloop).
  unfold getFunctions, getClasses.
  rewrite !(analyze_eq env _ dirPath maxDepth files Hfiles), !Hloop.
  split; eexists; (split; [reflexivity|]); simpl;
    apply Forall_concat, Forall_forall; intros l Hl;
    apply list_elem_of_In, in_map_iff in Hl as (entities & <- & _);
    apply keepType_typed.
Qed.

(** X15. Attribution in a scan: every record [getFunctions] or [getClasses]
    returns belongs to one of the collected files: it carries the base name
    of that file, its path relative to the resolved directory, and a line
    between 1 and the number of lines of its text. *)
Theorem scan_records_belong_to_collected_files (env : Env) (dirPath : string)
    (maxDepth : Z) :
  exists files functions classes,
    getFilesInDirectory env (path_resolve dirPath) maxDepth = Return files
    /\ getFunctions env dirPath maxDepth = Return functions
    /\ getClasses env dirPath maxDepth = Return classes
    /\ Forall
         (fun e =>
            exists filePath,
              In filePath files
              /\ file e = path_basename filePath
              /\ relativePath e = relativeTo (path_resolve dirPath) filePath
              /\ 1 <= line e
                 <= Z.of_nat (length (splitLines (readFileContent env filePath))))
         (functions ++ classes).
Proof.
  destruct (getFilesInDirectory_returns env (path_resolve dirPath) maxDepth)
    as [files Hfiles].
  destruct (forFiles_concat env (path_resolve dirPath) files)
    as (perFile & Hall & Hloop).
  exists files. do 2 eexists.
  split; [exact Hfiles|].
  unfold getFunctions, getClasses.
  rewrite !(analyze_eq env _ dirPath maxDepth files Hfiles), !Hloop.
  split; [reflexivity|]. split; [reflexivity|]. simpl.
  assert (Hone : forall keep,
    Forall
      (fun e =>
         exists filePath,
           In filePath files
           /\ file e = path_basename filePath
           /\ relativePath e = relativeTo (path_resolve dirPath) filePath
           /\ 1 <= line e
              <= Z.of_nat (length (splitLines (readFileContent env filePath))))
      (concat (List.map (keepType keep) perFile))).
  { intros keep. clear Hloop Hfiles.
    induction Hall as [|filePath entities files perFile (parser & _ & Hparse) _ IH];
      simpl; [constructor|].
    apply Forall_app. split.
    - apply Forall_forall. intros e He.
      apply list_elem_of_In, filter_In in He as [He _].
      destruct (parseFile_origin env parser filePath _ entities e Hparse He)
        as (pattern & m & _ & _ & _ & Hfile & Hrel & Hline).
      exists filePath. split; [now left | auto].
    - eapply Forall_impl; [exact IH|].
      intros e (filePath' & Hin & Hrest). exists filePath'. split; [now right | exact Hrest]. }
  apply Forall_app. auto.
Qed.

Lemma forFiles_go_classes (env : Env) (base : string) (files : list string)
    (all : list CodeEntity) :
  Forall (fun filePath => getParserForFile filePath = Some GoParser) files ->
  forFiles env class base files all = Return all.
Proof.
  intros Hgo. revert all.
  induction Hgo as [|filePath files Hparser _ IH]; intros all; [reflexivity|].
  cbn [forFiles]. rewrite Hparser. cbn [parseFile].
  unfold go_parseFile, go_findFunctions. cbn [bind].
  rewrite (filter_class_functions _
             (prefixFunctions_typed go_functionPattern _ filePath _)).
  rewrite app_nil_r. apply IH.
Qed.

(** X16. Go files have no classes: when every collected file is dispatched
    to [GoParser], [getClasses] returns the empty list. *)
Theorem go_files_yield_no_class (env : Env) (dirPath : string) (maxDepth : Z)
    (files : list string) :
  getFilesInDirectory env (path_resolve dirPath) maxDepth = Return files ->
  Forall (fun filePath => getParserForFile filePath = Some GoParser) files ->
  getClasses env dirPath maxDepth = Return [].
Proof.
  intros Hfiles Hgo. unfold getClasses.
  rewrite (analyze_eq env _ dirPath maxDepth files Hfiles).
  now apply forFiles_go_classes.
Qed.

End ScanMore.

(** ** The tables *)

Lemma singleLine_append (a b : string) :
  singleLine (a +:+ b) = singleLine a && singleLine b.
Proof. apply allUnits_append. Qed.

Lemma singleLine_digits (d : Decimal.uint) :
  singleLine (NilEmpty.string_of_uint d) = true.
Proof. induction d; simpl; auto. Qed.

Lemma singleLine_decimal (n : Z) : singleLine (decimal n) = true.
Proof.
  unfold decimal, NilZero.string_of_int, NilZero.string_of_uint.
  destruct (Z.to_int n) as [d|d]; destruct d; try reflexivity;
    try apply (singleLine_digits (_ _)).
  all: change (singleLine (String "-" (NilEmpty.string_of_uint ?x)))
         with (singleLine (NilEmpty.string_of_uint x)); apply singleLine_digits.
Qed.

Lemma numberToString_safe (n : Z) :
  Z.abs n <= MAX_SAFE_INTEGER -> numberToString n = Some (decimal n).
Proof.
  intros Hsafe. unfold numberToString.
  now replace (Z.abs n <=? MAX_SAFE_INTEGER) with true by (symmetry; now apply Z.leb_le).
Qed.

Lemma splitLines_first_line (l rest : string) :
  singleLine l = true ->
  splitLines (l +:+ String newline rest) = l :: splitLines rest.
Proof.
  unfold singleLine. induction l as [|c l IH]; intros Hl.
  - reflexivity.
  - simpl in Hl. apply andb_true_iff in Hl as [Hc Hl].
    rewrite append_cons. cbn [splitLines].
    apply negb_true_iff in Hc. rewrite Hc, (IH Hl). reflexivity.
Qed.

Lemma append_newline (x : string) :
  String newline EmptyString +:+ x = String newline x.
Proof. reflexivity. Qed.

Lemma fold_rows {A : Type} (row : A -> option string) (l : list A)
    (rows : list string) (table : string) :
  Forall2 (fun x r => row x = Some r) l rows ->
  fold_left (fun table x => appendRow table (row x)) l (Some table)
  = Some (table +:+ rowsText rows).
Proof.
  intros Hrows. revert table.
  induction Hrows as [|x r l rows Hrow _ IH]; intros table; simpl.
  - now rewrite append_empty_r.
  - rewrite Hrow. simpl. rewrite IH. now rewrite append_assoc.
Qed.

(** Whatever the rows, a table that could be printed begins with the
    text the loop started from. *)
Lemma fold_rows_prefix {A : Type} (row : A -> option string) (l : list A)
    (table : option string) (result : string) :
  fold_left (fun table x => appendRow table (row x)) l table = Some result ->
  exists start rest, table = Some start /\ result = start +:+ rest.
Proof.
  revert table.
  induction l as [|x l IH]; intros table; simpl.
  - intros ->. exists result, EmptyString. now rewrite append_empty_r.
  - intros Hfold. apply IH in Hfold as (start & rest & Hstart & ->).
    destruct table as [t|]; [|discriminate].
    destruct (row x) as [r|]; [|discriminate].
    injection Hstart as <-. exists t. eexists. split; [reflexivity|].
    now rewrite append_assoc.
Qed.

Lemma splitLines_rows (rows : list string) :
  Forall (fun row => singleLine row = true) rows ->
  splitLines (rowsText rows) = rows ++ [EmptyString].
Proof.
  induction 1 as [|row rows Hrow _ IH]; [reflexivity|].
  simpl. rewrite append_assoc, append_newline.
  now rewrite (splitLines_first_line row _ Hrow), IH.
Qed.

Lemma functionRow_printable (e : CodeEntity) :
  printable e ->
  exists row, functionRow e = Some row /\ singleLine row = true.
Proof.
  intros (Hsafe & Hname & Hfile & Hrel). unfold functionRow.
  rewrite (numberToString_safe _ Hsafe). eexists. split; [reflexivity|].
  rewrite !singleLine_append, Hname, Hfile, Hrel, singleLine_decimal.
  reflexivity.
Qed.

Lemma classRow_printable (e : CodeEntity) :
  printable e ->
  exists row, classRow e = Some row /\ singleLine row = true.
Proof.
  intros (Hsafe & Hname & Hfile & Hrel). unfold classRow.
  rewrite (numberToString_safe _ Hsafe). eexists. split; [reflexivity|].
  rewrite !singleLine_append, Hname, Hfile, Hrel, singleLine_decimal.
  reflexivity.
Qed.

Lemma rows_exist {A : Type} (row : A -> option string) (P : A -> Prop) (l : list A) :
  (forall x, P x -> exists r, row x = Some r /\ singleLine r = true) ->
  Forall P l ->
  exists rows,
    Forall2 (fun x r => row x = Some r) l rows
    /\ Forall (fun r => singleLine r = true) rows.
Proof.
  intros Hrow. induction 1 as [|x l Hx _ (rows & Hall & Hlines)].
  - exists []. split; constructor.
  - destruct (Hrow x Hx) as (r & Hr & Hline).
    exists (r :: rows). split; constructor; auto.
Qed.

Lemma table_lines {A : Type} (row : A -> option string) (header rule : string)
    (l : list A) (rows : list string) :
  singleLine header = true -> singleLine rule = true ->
  Forall2 (fun x r => row x = Some r) l rows ->
  Forall (fun r => singleLine r = true) rows ->
  exists table,
    fold_left (fun table x => appendRow table (row x)) l
      (Some ((header +:+ String newline EmptyString)
               +:+ rule +:+ String newline EmptyString))
    = Some table
    /\ splitLines table = header :: rule :: rows ++ [EmptyString].
Proof.
  intros Hheader Hrule Hrows Hlines.
  rewrite (fold_rows row l rows _ Hrows). eexists. split; [reflexivity|].
  rewrite !append_assoc, !append_newline.
  rewrite (splitLines_first_line header _ Hheader).
  rewrite (splitLines_first_line rule _ Hrule).
  now rewrite splitLines_rows.
Qed.

(** X17. The table of functions: the message [No functions found.] is
    returned exactly for the empty list; for a non-empty list of records
    whose line is a safe integer and whose name, file and path hold no line
    break, the table is the header line, the rule line, the row of each
    record in order, and a final line break. *)
Theorem formatFunctionsTable_lists_every_record (functions : list CodeEntity) :
  (formatFunctionsTable functions = Some "No functions found." <-> functions = [])
  /\ (functions <> [] ->
      Forall printable functions ->
      exists table rows,
        formatFunctionsTable functions = Some table
        /\ Forall2 (fun e row => functionRow e = Some row) functions rows
        /\ splitLines table
           = "function | line | file | path"
               :: "---------|------|------|------"
               :: rows ++ [EmptyString]).
Proof.
  split.
  - destruct functions as [|e functions]; [split; reflexivity|].
    split; [|discriminate].
    unfold formatFunctionsTable.
    replace (Z.of_nat (length (e :: functions)) =? 0) with false
      by (symmetry; apply Z.eqb_neq; simpl; lia).
    cbv zeta. intros Hfold.
    apply fold_rows_prefix in Hfold as (start & rest & [= <-] & Hresult).
    rewrite !append_assoc in Hresult. discriminate.
  - intros Hne Hfields. unfold formatFunctionsTable.
    replace (Z.of_nat (length functions) =? 0) with false
      by (symmetry; apply Z.eqb_neq; destruct functions; [contradiction | simpl; lia]).
    cbv zeta.
    destruct (rows_exist functionRow printable functions functionRow_printable Hfields)
      as (rows & Hrows & Hlines).
    destruct (table_lines functionRow "function | line | file | path"
                "---------|------|------|------" functions rows
                eq_refl eq_refl Hrows Hlines) as (table & Htable & Hsplit).
    exists table, rows. auto.
Qed.

(** X18. The table of classes: the message [No classes found.] is returned
    exactly for the empty list; for a non-empty list of records whose line
    is a safe integer and whose name, file and path hold no line break, the
    table is the header line, the rule line, the row of each record in
    order, and a final line break. *)
Theorem formatClassesTable_lists_every_record (classes : list CodeEntity) :
  (formatClassesTable classes = Some "No classes found." <-> classes = [])
  /\ (classes <> [] ->
      Forall printable classes ->
      exists table rows,
        formatClassesTable classes = Some table
        /\ Forall2 (fun e row => classRow e = Some row) classes rows
        /\ splitLines table
           = "class | line | file | path"
               :: "------|------|------|------"
               :: rows ++ [EmptyString]).
Proof.
  split.
  - destruct classes as [|e classes]; [split; reflexivity|].
    split; [|discriminate].
    unfold formatClassesTable.
    replace (Z.of_nat (length (e :: classes)) =? 0) with false
      by (symmetry; apply Z.eqb_neq; simpl; lia).
    cbv zeta. intros Hfold.
    apply fold_rows_prefix in Hfold as (start & rest & [= <-] & Hresult).
    rewrite !append_assoc in Hresult. discriminate.
  - intros Hne Hfields. unfold formatClassesTable.
    replace (Z.of_nat (length classes) =? 0) with false
      by (symmetry; apply Z.eqb_neq; destruct classes; [contradiction | simpl; lia]).
    cbv zeta.
    destruct (rows_exist classRow printable classes classRow_printable Hfields)
      as (rows & Hrows & Hlines).
    destruct (table_lines classRow "class | line | file | path"
                "------|------|------|------" classes rows
                eq_refl eq_refl Hrows Hlines) as (table & Htable & Hsplit).
    exists table, rows. auto.
Qed.

(** ** The further properties on concrete inputs *)

(** X5 on the two-line file without functions: the class at the start of
    line 2 is matched from the line break of line 1 on, and reported
    there. *)
Lemma js_class_lines_without_functions_witness :
  js_findFunctions
    (readFileContent (treeEnv [("/project/plain.js", plain_js)]) "/project/plain.js")
    "/project/plain.js" (relativeTo "/project" "/project/plain.js") [] = []
  /\ js_parseFile (treeEnv [("/project/plain.js", plain_js)]) "/project/plain.js" "/project"
     = Return
         [ {| name := "Foo"; line := 1; file := "plain.js";
              relativePath := "plain.js"; type := class |} ]
  /\ exists entities,
       js_parseFile (treeEnv [("/project/plain.js", plain_js)])
         "/project/plain.js" "/project" = Return entities
       /\ Forall
            (fun e =>
               type e = class
               /\ exists m lineContent,
                    In m (execAll js_classPattern
                            (readFileContent (treeEnv [("/project/plain.js", plain_js)])
                               "/project/plain.js"))
                    /\ name e = group1 m
                    /\ line e = lineOfPrefix
                                  (readFileContent (treeEnv [("/project/plain.js", plain_js)])
                                     "/project/plain.js") (index m)
                    /\ at_ (splitLines
                              (readFileContent (treeEnv [("/project/plain.js", plain_js)])
                                 "/project/plain.js")) (line e - 1)
                       = Some lineContent
                    /\ js_rejectLine lineContent = false)
            entities.
Proof.
  split; [vm_compute; reflexivity|].
  split; [vm_compute; reflexivity|].
  apply (js_class_lines_without_functions
           (treeEnv [("/project/plain.js", plain_js)]) "/project/plain.js" "/project").
  vm_compute. reflexivity.
Defined.

(** X9 on a text of two lines. *)
Lemma getLineContent_lines_rebuild_the_text_witness :
  (5 < 0 \/ Z.of_nat (length (splitLines (unlines ["let x = 1;"; "class Foo {}"]))) <= 5)
  /\ getLineContent (unlines ["let x = 1;"; "class Foo {}"]) 5 = EmptyString
  /\ getLineContent (unlines ["let x = 1;"; "class Foo {}"]) 1 = "class Foo {}".
Proof.
  assert (Hout : 5 < 0
                 \/ Z.of_nat (length (splitLines (unlines ["let x = 1;"; "class Foo {}"])))
                    <= 5)
    by (right; vm_compute; discriminate).
  split; [exact Hout|].
  split; [|reflexivity].
  exact (proj2 (proj2 (getLineContent_lines_rebuild_the_text
                         (unlines ["let x = 1;"; "class Foo {}"]))) 5 Hout).
Defined.

(** X16 on a tree with one Go file. *)
Lemma go_files_yield_no_class_witness :
  getFilesInDirectory (treeEnv [("/project/main.go", "func main() {}")])
    (path_resolve "/project") 3 = Return ["/project/main.go"]
  /\ Forall (fun filePath => getParserForFile filePath = Some GoParser) ["/project/main.go"]
  /\ getFunctions (treeEnv [("/project/main.go", "func main() {}")]) "/project" 3
     = Return
         [ {| name := "main"; line := 1; file := "main.go";
              relativePath := "main.go"; type := function |} ]
  /\ getClasses (treeEnv [("/project/main.go", "func main() {}")]) "/project" 3
     = Return [].
Proof.
  assert (Hfiles :
    getFilesInDirectory (treeEnv [("/project/main.go", "func main() {}")])
      (path_resolve "/project") 3 = Return ["/project/main.go"])
    by (vm_compute; reflexivity).
  assert (Hgo : Forall (fun filePath => getParserForFile filePath = Some GoParser)
                  ["/project/main.go"])
    by (repeat constructor).
  split; [exact Hfiles|]. split; [exact Hgo|].
  split; [vm_compute; reflexivity|].
  exact (go_files_yield_no_class
           (treeEnv [("/project/main.go", "func main() {}")]) "/project" 3
           ["/project/main.go"] Hfiles Hgo).
Defined.

(** X17 on one record: the row is the one the code writes. *)
Lemma formatFunctionsTable_lists_every_record_witness :
  [ {| name := "deep"; line := 12; file := "deep.js";
       relativePath := "src/deep.js"; type := function |} ] <> []
  /\ Forall printable
       [ {| name := "deep"; line := 12; file := "deep.js";
            relativePath := "src/deep.js"; type := function |} ]
  /\ exists table,
       formatFunctionsTable
         [ {| name := "deep"; line := 12; file := "deep.js";
              relativePath := "src/deep.js"; type := function |} ] = Some table
       /\ splitLines table
          = [ "function | line | file | path";
              "---------|------|------|------";
              "function deep | 12 | deep.js | src/deep.js";
              EmptyString ].
Proof.
  assert (Hprintable :
    Forall printable
      [ {| name := "deep"; line := 12; file := "deep.js";
           relativePath := "src/deep.js"; type := function |} ])
    by (repeat constructor; vm_compute; discriminate).
  split; [discriminate|]. split; [exact Hprintable|].
  destruct (proj2 (formatFunctionsTable_lists_every_record
                     [ {| name := "deep"; line := 12; file := "deep.js";
                          relativePath := "src/deep.js"; type := function |} ])
              ltac:(discriminate) Hprintable)
    as (table & rows & Htable & Hrows & Hsplit).
  exists table. split; [exact Htable|].
  inversion Hrows as [|e row l rows' Hrow Hrest]; subst.
  inversion Hrest; subst.
  vm_compute in Hrow. injection Hrow as <-. exact Hsplit.
Defined.

(** X18 on one record: the row is the one the code writes. *)
Lemma formatClassesTable_lists_every_record_witness :
  [ {| name := "Cart"; line := 3; file := "cart.py";
       relativePath := "shop/cart.py"; type := class |} ] <> []
  /\ Forall printable
       [ {| name := "Cart"; line := 3; file := "cart.py";
            relativePath := "shop/cart.py"; type := class |} ]
  /\ exists table,
       formatClassesTable
         [ {| name := "Cart"; line := 3; file := "cart.py";
              relativePath := "shop/cart.py"; type := class |} ] = Some table
       /\ splitLines table
          = [ "class | line | file | path";
              "------|------|------|------";
              "class Cart | 3 | cart.py | shop/cart.py";
              EmptyString ].
Proof.
  assert (Hprintable :
    Forall printable
      [ {| name := "Cart"; line := 3; file := "cart.py";
           relativePath := "shop/cart.py"; type := class |} ])
    by (repeat constructor; vm_compute; discriminate).
  split; [discriminate|]. split; [exact Hprintable|].
  destruct (proj2 (formatClassesTable_lists_every_record
                     [ {| name := "Cart"; line := 3; file := "cart.py";
                          relativePath := "shop/cart.py"; type := class |} ])
              ltac:(discriminate) Hprintable)
    as (table & rows & Htable & Hrows & Hsplit).
  exists table. split; [exact Htable|].
  inversion Hrows as [|e row l rows' Hrow Hrest]; subst.
  inversion Hrest; subst.
  vm_compute in Hrow. injection Hrow as <-. exact Hsplit.
Defined.

(** [PythonParser] on a small module: the commented class is left out, the
    records come in line order. *)
Lemma python_module_example :
  py_parseFile
    (treeEnv [("/project/shop.py",
               unlines ["class Cart(Base):"; "    def total(self):"; "# class Old:";
                        "def main():"])])
    "/project/shop.py" "/project"
  = Return
      [ {| name := "total"; line := 2; file := "shop.py";
           relativePath := "shop.py"; type := function |};
        {| name := "main"; line := 4; file := "shop.py";
           relativePath := "shop.py"; type := function |};
        {| name := "Cart"; line := 1; file := "shop.py";
           relativePath := "shop.py"; type := class |} ].
Proof. vm_compute. reflexivity. Qed.

(** ** Rooted patterns *)


Section Rooted.
Context `{NodePath}.


End Rooted.

(** ** Files that cannot be read *)

Section Unreadable.
Context `{NodePath}.

(** On a file that can be read, a parser works on the text read. *)
Lemma parseFile_readable (env : Env) (parser : Parser)
    (filePath basePath text : string) :
  readFileSync (fs env) filePath = Return text ->
  parseFile env parser filePath basePath
  = parseContent parser text filePath (relativeTo basePath filePath).
Proof.
  intros Hread.
  assert (Hcontent : readFileContent env filePath = text)
    by (unfold readFileContent; now rewrite Hread).
  destruct parser; simpl.
  - unfold js_parseFile. now rewrite Hcontent.
  - unfold py_parseFile. now rewrite Hcontent.
  - unfold go_parseFile. now rewrite Hcontent.
Qed.

(** The loop of the analyzers adds, file after file, the filtered records
    of the files that can be read, and nothing for the others. *)
Lemma forFiles_readable (env : Env) (base : string) (files : list string) :
  exists perFile,
    Forall2 (fun file entities =>
               parsedAs env base file entities
               /\ readAndParsed env base file entities)
      (List.filter (canRead env) files) perFile
    /\ forall keep all,
         forFiles env keep base files all
         = Return (all ++ concat (List.map (keepType keep) perFile)).
Proof.
  induction files as [|file files (perFile & Hall & Hloop)].
  - exists []. split; [constructor|]. intros keep all. simpl. now rewrite app_nil_r.
  - destruct (getParserForFile_some file) as [parser Hparser].
    cbn [List.filter]. unfold canRead at 1.
    destruct (readFileSync (fs env) file) as [text|e] eqn:Hread.
    + destruct (parseFile_returns env parser file base) as [entities Hparse].
      exists (entities :: perFile). split.
      * constructor; [|exact Hall]. split.
        -- exists parser. auto.
        -- exists parser, text. repeat split; auto.
           now rewrite <- (parseFile_readable env parser file base text Hread).
      * intros keep all. cbn [forFiles]. rewrite Hparser, Hparse. cbn [bind].
        rewrite Hloop. cbn [List.map concat]. now rewrite <- app_assoc.
    + exists perFile. split; [exact Hall|].
      intros keep all. cbn [forFiles].
      rewrite Hparser, (parseFile_unreadable env parser file base e Hread).
      cbn [bind List.filter]. rewrite app_nil_r. apply Hloop.
Qed.

(** C8. A file whose read fails is parsed to no record by every parser and
    stops nothing: the scan returns, in the order of the collector, the
    function records (for [getFunctions]) and the class records (for
    [getClasses]) that the parser chosen for each readable file finds in
    the text read from it, and these are the records [parseFile] returns
    for that file; the loop over the readable files alone returns the
    same, and when no file can be read the scan returns the empty list. *)
Theorem unreadable_files_are_skipped (env : Env) (dirPath : string)
    (maxDepth : Z) (files : list string) :
  getFilesInDirectory env (path_resolve dirPath) maxDepth = Return files ->
  let base := path_resolve dirPath in
  let readable := List.filter (canRead env) files in
  (forall file parser, canRead env file = false ->
     parseFile env parser file base = Return [])
  /\ (exists perFile,
        Forall2 (parsedAs env base) readable perFile
        /\ Forall2 (readAndParsed env base) readable perFile
        /\ getFunctions env dirPath maxDepth
           = Return (concat (List.map (keepType function) perFile))
        /\ getClasses env dirPath maxDepth
           = Return (concat (List.map (keepType class) perFile))
        /\ forFiles env function base readable []
           = Return (concat (List.map (keepType function) perFile))
        /\ forFiles env class base readable []
           = Return (concat (List.map (keepType class) perFile)))
  /\ (readable = [] ->
      getFunctions env dirPath maxDepth = Return []
      /\ getClasses env dirPath maxDepth = Return []).
Proof.
  intros Hfiles base readable.
  assert (Hskip : forall keep,
    forFiles env keep base files [] = forFiles env keep base readable [])
    by (intros keep; apply forFiles_skip_unreadable).
  assert (Hscan : forall keep,
    analyze env keep dirPath maxDepth = forFiles env keep base files [])
    by (intros keep; exact (analyze_eq env keep dirPath maxDepth files Hfiles)).
  split.
  { intros file parser Hcan. unfold canRead in Hcan.
    destruct (readFileSync (fs env) file) as [text|e] eqn:Hread; [discriminate|].
    exact (parseFile_unreadable env parser file base e Hread). }
  split.
  { destruct (forFiles_readable env base files) as (perFile & Hall & Hloop).
    exists perFile.
    split; [eapply Forall2_impl; [exact Hall | intros ? ? [? _]; assumption]|].
    split; [eapply Forall2_impl; [exact Hall | intros ? ? [_ ?]; assumption]|].
    unfold getFunctions, getClasses.
    rewrite <- !Hskip, !Hscan, !Hloop. cbn [app]. auto. }
  intros Hnone. unfold getFunctions, getClasses.
  rewrite !Hscan, !Hskip, Hnone. auto.
Qed.

End Unreadable.

(** C8 on a tree in which the first of the two listed files cannot be
    read: both scans return the records of the other file alone. *)
Lemma unreadable_files_are_skipped_witness :
  getFilesInDirectory
    (listedEnv [("/project/a.js", nested_js)] ["/project/locked.js"; "/project/a.js"])
    (path_resolve "/project") 3
  = Return ["/project/locked.js"; "/project/a.js"]
  /\ canRead
       (listedEnv [("/project/a.js", nested_js)] ["/project/locked.js"; "/project/a.js"])
       "/project/locked.js" = false
  /\ getFunctions
       (listedEnv [("/project/a.js", nested_js)] ["/project/locked.js"; "/project/a.js"])
       "/project" 3
     = Return
         [ {| name := "deep"; line := 1; file := "a.js";
              relativePath := "a.js"; type := function |};
           {| name := "deep"; line := 1; file := "a.js";
              relativePath := "a.js"; type := function |} ]
  /\ getClasses
       (listedEnv [("/project/a.js", nested_js)] ["/project/locked.js"; "/project/a.js"])
       "/project" 3
     = Return [].
Proof.
  assert (Hfiles :
    getFilesInDirectory
      (listedEnv [("/project/a.js", nested_js)] ["/project/locked.js"; "/project/a.js"])
      (path_resolve "/project") 3
    = Return ["/project/locked.js"; "/project/a.js"]) by reflexivity.
  split; [exact Hfiles|]. split; [reflexivity|].
  destruct (unreadable_files_are_skipped
              (listedEnv [("/project/a.js", nested_js)]
                 ["/project/locked.js"; "/project/a.js"])
              "/project" 3 ["/project/locked.js"; "/project/a.js"] Hfiles)
    as (_ & (perFile & _ & Hread & Hfunctions & Hclasses & _) & _).
  change (List.filter _ _) with ["/project/a.js"] in Hread.
  inversion Hread as [|file entities l rest Hone Hrest]; subst.
  inversion Hrest; subst.
  destruct Hone as (parser & text & Hparser & Htext & Hparsed).
  vm_compute in Hparser. injection Hparser as <-.
  vm_compute in Htext. injection Htext as <-.
  vm_compute in Hparsed. injection Hparsed as <-.
  split; [exact Hfunctions | exact Hclasses].
Defined.
